(** * Self-healing Playwright locators: cache store and locator resolution

    A shallow embedding of
      - [src/utils/cache.ts]                      (class [LocalCache]),
      - [src/config/config-manager.ts]            (class [ConfigManager]),
      - [src/core/smart-locator-generator.ts]     (class [SmartLocatorGenerator]),
      - [src/core/self-healing-locator-error.ts]  (class [SelfHealingLocatorError]),
      - [src/extensions/playwright-extensions.ts] (class [PlaywrightSelfHealing]),
    followed by the properties of the specification that concern them.

    Conventions of the embedding.
      - A JavaScript [Map<string, V>] is a [gmap string V]; iteration order
        is not observable in anything stated below.
      - A JavaScript number is a binary64 float. [hits] and [misses] start
        at 0 with every store and grow by 1 with a request; they are modelled
        by [N]. [successCount] and [failureCount] are read from the file as
        well, so they can be any number; the integral ones are modelled by
        their value in [Z], and [x++] on them by [increment], which rounds
        the successor to the nearest binary64 value, ties to even.
      - Every other JavaScript number is modelled by the kernel's floats
        ([PrimFloat]), whose operations round to nearest, ties to even, as
        ECMAScript's do.
      - A file holds either a JSON document, modelled by the value that
        [JSON.parse] returns for it, or bytes on which reading or parsing
        throws.
      - The clock, the date library, the page and the inference provider are
        parameters. *)

From Corelib Require Import PrimInt63 Uint63Axioms PrimFloat SpecFloat FloatOps.
From Stdlib Require Import ZArith.
From stdpp Require Import gmap strings list fin_maps pretty.

#[local] Set Warnings "-register-all".
#[local] Open Scope Z_scope.

(** ** JSON values as [JSON.parse] returns them

    The numbers of a document are taken to be integers, as the counts
    that the store writes are: [JNum n] is the binary64 value [n]. *)

Inductive json : Type :=
  | JNull
  | JBool (b : bool)
  | JNum (n : Z)
  | JStr (s : string)
  | JArr (l : list json)
  | JObj (o : gmap string json).

(** The result of [typeof]; [None] stands for [undefined]. *)
Inductive jstype : Type := TUndefined | TObject | TBoolean | TNumber | TString.

#[global] Instance jstype_eq_dec : EqDecision jstype.
Proof. solve_decision. Defined.

Definition typeof (v : option json) : jstype :=
  match v with
  | None => TUndefined
  | Some JNull | Some (JArr _) | Some (JObj _) => TObject
  | Some (JBool _) => TBoolean
  | Some (JNum _) => TNumber
  | Some (JStr _) => TString
  end.

(** JavaScript truthiness of a value. *)
Definition truthy (v : json) : bool :=
  match v with
  | JNull => false
  | JBool b => b
  | JNum n => negb (n =? 0)
  | JStr s => negb (String.eqb s "")
  | JArr _ | JObj _ => true
  end.

(** [v.k] for a truthy [v] and a property name [k] that is neither an array
    index nor a member of a built-in prototype, which holds of the six
    field names of [CacheEntry]: only an object can own such a property. *)
Definition prop (v : json) (k : string) : option json :=
  match v with
  | JObj o => o !! k
  | _ => None
  end.

(** [Object.entries]: [None] when it throws (on [null]); primitives have no
    own enumerable properties, a string has its characters and an array its
    elements under their decimal indices. *)
Fixpoint chars (s : string) : list json :=
  match s with
  | EmptyString => []
  | String c r => JStr (String c EmptyString) :: chars r
  end.

Definition indexed (l : list json) : list (string * json) :=
  imap (λ i v, (pretty i, v)) l.

Definition Object_entries (v : json) : option (list (string * json)) :=
  match v with
  | JNull => None
  | JBool _ | JNum _ => Some []
  | JStr s => Some (indexed (chars s))
  | JArr l => Some (indexed l)
  | JObj o => Some (map_to_list o)
  end.

(** ** Cache entries ([src/utils/cache.ts]) *)

Record CacheEntry : Type := {
  originalLocator : string;
  generatedLocator : string;
  strategy : string;
  timestamp : string;
  successCount : Z;
  failureCount : Z
}.

#[global] Instance CacheEntry_eq_dec : EqDecision CacheEntry.
Proof. solve_decision. Defined.

(** What [set] receives: [Omit<CacheEntry, "timestamp" | "successCount" |
    "failureCount">]. *)
Record NewEntry : Type := {
  ne_originalLocator : string;
  ne_generatedLocator : string;
  ne_strategy : string
}.

Definition isValidCacheEntry (entry : json) : bool :=
  truthy entry
  && bool_decide (typeof (prop entry "originalLocator") = TString)
  && bool_decide (typeof (prop entry "generatedLocator") = TString)
  && bool_decide (typeof (prop entry "strategy") = TString)
  && bool_decide (typeof (prop entry "timestamp") = TString)
  && bool_decide (typeof (prop entry "successCount") = TNumber)
  && bool_decide (typeof (prop entry "failureCount") = TNumber).

Definition str_of (v : option json) : string :=
  match v with Some (JStr s) => s | _ => "" end.

Definition num_of (v : option json) : Z :=
  match v with Some (JNum n) => n | _ => 0 end.

(** The cast [entry as CacheEntry], read through the six fields. Fields
    of the parsed object beyond these six are not represented. *)
Definition asCacheEntry (entry : json) : CacheEntry :=
  {| originalLocator := str_of (prop entry "originalLocator");
     generatedLocator := str_of (prop entry "generatedLocator");
     strategy := str_of (prop entry "strategy");
     timestamp := str_of (prop entry "timestamp");
     successCount := num_of (prop entry "successCount");
     failureCount := num_of (prop entry "failureCount") |}.

(** The object that [JSON.stringify] writes for an entry. *)
Definition entryJson (e : CacheEntry) : json :=
  JObj (list_to_map
    [ ("originalLocator", JStr (originalLocator e));
      ("generatedLocator", JStr (generatedLocator e));
      ("strategy", JStr (strategy e));
      ("timestamp", JStr (timestamp e));
      ("successCount", JNum (successCount e));
      ("failureCount", JNum (failureCount e)) ]).

(** ** The file system, as far as the cache uses it *)

Inductive file : Type :=
  | Garbled               (* [readFileSync] or [JSON.parse] throws *)
  | Document (j : json).  (* parses to [j] *)

Record FS : Type := {
  files : gmap string file;
  writable : bool          (* whether [writeFileSync] succeeds *)
}.

Definition writeFileSync (path : string) (j : json) (fs : FS) : option FS :=
  if writable fs
  then Some {| files := <[path := Document j]> (files fs); writable := true |}
  else None.

(** ** The store *)

Record LocalCache : Type := {
  cache : gmap string CacheEntry;
  cachePath : string;
  hits : N;
  misses : N
}.

(** [oldestEntry] and [newestEntry], which depend on the iteration order of
    the map and on no property below, are left out. *)
Record CacheStatistics : Type := {
  totalEntries : nat;
  hitRate : float;
  totalHits : N;
  totalMisses : N
}.

(** ** Numbers *)

(** The float of an integer; exact for magnitudes below 2^53. *)
Definition Number_of_Z (k : Z) : float :=
  if k <? 0
  then PrimFloat.opp (PrimFloat.of_uint63 (Uint63Axioms.of_Z (- k)))
  else PrimFloat.of_uint63 (Uint63Axioms.of_Z k).

Definition Number_of_N (n : N) : float := Number_of_Z (Z.of_N n).

(** [Math.round]: the integer closest to [x], the one towards +∞ of two
    equally close ones; [x] itself when it is integral, infinite or [NaN];
    [-0] for [-0.5 <= x < 0]. A finite [x] is [±m * 2^e]. *)
Definition Math_round (x : float) : float :=
  match Prim2SF x with
  | S754_finite s m e =>
      if 0 <=? e then x
      else
        let d := 2 ^ (- e) in
        let num := if s then Z.neg m else Z.pos m in
        let k := (2 * num + d) / (2 * d) in
        if (k =? 0) && s then (-0)%float else Number_of_Z k
  | _ => x
  end.

(** The integer that a number holds, if it is one. *)
Definition Z_of_Number (x : float) : option Z :=
  match Prim2SF x with
  | S754_zero _ => Some 0
  | S754_finite s m e =>
      if 0 <=? e
      then Some ((if s then Z.neg m else Z.pos m) * 2 ^ e)
      else if Z.pos m mod 2 ^ (- e) =? 0
           then Some ((if s then Z.neg m else Z.pos m) / 2 ^ (- e))
           else None
  | _ => None
  end.

(** The binary64 value nearest to the integer [z], the one with the even
    significand of two equally near ones: what an arithmetic operation
    returns when its exact result is [z]. An integer of at most 53 bits is a
    binary64 value; a longer one, of [53 + e] bits, lies between two
    neighbouring multiples of [2^e]. (Overflow to [Infinity], from 2^1024 on,
    is not reached by the successor of a number.) *)
Definition Number_nearest (z : Z) : Z :=
  let e := Z.log2 (Z.abs z) - 52 in
  if e <=? 0 then z
  else
    let q := Z.abs z / 2 ^ e in
    let r := Z.abs z mod 2 ^ e in
    let up := (2 ^ (e - 1) <? r) || ((r =? 2 ^ (e - 1)) && Z.odd q) in
    Z.sgn z * ((if up then q + 1 else q) * 2 ^ e).

(** [x++] on a number that holds the integer [n]: the sum [n + 1], rounded.
    It is [n + 1] up to 2^53, where it stays. *)
Definition increment (n : Z) : Z := Number_nearest (n + 1).

Section Store.

(** [Date.prototype.toISOString] on a time in milliseconds, and
    [new Date(s).getTime()], which is [NaN] ([None]) on a string that is no
    date. *)
Variable toISOString : Z → string.
Variable getTime : string → option Z.

(** [entryAge > maxAge]; a comparison with [NaN] is false. *)
Definition expired (now maxAge : Z) (entry : CacheEntry) : bool :=
  match getTime (timestamp entry) with
  | Some t => maxAge <? now - t
  | None => false
  end.

(** The loop deletes every entry on which the test holds. *)
Definition cleanupExpiredEntries
    (now : Z) (maxAgeInDays : Z) (m : gmap string CacheEntry) : gmap string CacheEntry :=
  let maxAge := maxAgeInDays * 24 * 60 * 60 * 1000 in
  filter (λ kv, expired now maxAge kv.2 = false) m.

(** The age limit that results from the default of 2 days, in
    milliseconds. *)
Definition loadMaxAge : Z := 2 * 24 * 60 * 60 * 1000.

(** The loop of [loadCache] over [Object.entries(cacheData)]. *)
Definition loadEntries
    (es : list (string * json)) (m : gmap string CacheEntry) : gmap string CacheEntry :=
  foldl (λ acc kv, if isValidCacheEntry kv.2 then <[kv.1 := asCacheEntry kv.2]> acc else acc)
        m es.

(** [loadCache], run by the constructor on the empty map; every [throw]
    inside the [try] ends in [this.cache.clear()]. [cleanupExpiredEntries]
    is called without an argument, so with its default of 2 days. *)
Definition loadCache (now : Z) (path : string) (fs : FS) : gmap string CacheEntry :=
  match files fs !! path with
  | None => ∅
  | Some Garbled => ∅
  | Some (Document cacheData) =>
      match Object_entries cacheData with
      | None => ∅
      | Some es => cleanupExpiredEntries now 2 (loadEntries es ∅)
      end
  end.

(** The store that the constructor builds once [ensureCacheDirectory] has
    returned, that is, when the directory of the path exists or has been
    made. The constructor as a whole, which throws when the directory
    cannot be made, is [LocalCache_constructor] below. *)
Definition new_LocalCache (now : Z) (path : string) (fs : FS) : LocalCache :=
  {| cache := loadCache now path fs; cachePath := path; hits := 0; misses := 0 |}.

(** [getInstance], when the constructor returns. *)
Definition getInstance
    (instance : option LocalCache) (now : Z) (path : string) (fs : FS) : LocalCache :=
  match instance with
  | None => new_LocalCache now path fs
  | Some c => if decide (cachePath c = path) then c else new_LocalCache now path fs
  end.

(** [Object.fromEntries(this.cache)], as [JSON.stringify] writes it. *)
Definition cacheObject (m : gmap string CacheEntry) : json := JObj (entryJson <$> m).

(** [saveCache]: a failed write is caught and logged. *)
Definition saveCache (c : LocalCache) (fs : FS) : FS :=
  match writeFileSync (cachePath c) (cacheObject (cache c)) fs with
  | Some fs' => fs'
  | None => fs
  end.

Definition with_cache (c : LocalCache) (m : gmap string CacheEntry) : LocalCache :=
  {| cache := m; cachePath := cachePath c; hits := hits c; misses := misses c |}.

Definition countHit (c : LocalCache) : LocalCache :=
  {| cache := cache c; cachePath := cachePath c;
     hits := (hits c + 1)%N; misses := misses c |}.

Definition countMiss (c : LocalCache) : LocalCache :=
  {| cache := cache c; cachePath := cachePath c;
     hits := hits c; misses := (misses c + 1)%N |}.

Definition get (k : string) (c : LocalCache) : option CacheEntry * LocalCache :=
  match cache c !! k with
  | Some entry => (Some entry, countHit c)
  | None => (None, countMiss c)
  end.

Definition set (now : Z) (k : string) (entry : NewEntry)
    (c : LocalCache) (fs : FS) : LocalCache * FS :=
  let cacheEntry :=
    {| originalLocator := ne_originalLocator entry;
       generatedLocator := ne_generatedLocator entry;
       strategy := ne_strategy entry;
       timestamp := toISOString now;
       successCount := 0;
       failureCount := 0 |} in
  let c' := with_cache c (<[k := cacheEntry]> (cache c)) in
  (c', saveCache c' fs).

(** [entry.successCount++] and [entry.failureCount++]. *)
Definition bumpSuccess (e : CacheEntry) : CacheEntry :=
  {| originalLocator := originalLocator e; generatedLocator := generatedLocator e;
     strategy := strategy e; timestamp := timestamp e;
     successCount := increment (successCount e); failureCount := failureCount e |}.

Definition bumpFailure (e : CacheEntry) : CacheEntry :=
  {| originalLocator := originalLocator e; generatedLocator := generatedLocator e;
     strategy := strategy e; timestamp := timestamp e;
     successCount := successCount e; failureCount := increment (failureCount e) |}.

Definition updateSuccess (k : string) (c : LocalCache) (fs : FS) : LocalCache * FS :=
  match cache c !! k with
  | Some entry =>
      let c' := with_cache c (<[k := bumpSuccess entry]> (cache c)) in
      (c', saveCache c' fs)
  | None => (c, fs)
  end.

Definition updateFailure (k : string) (c : LocalCache) (fs : FS) : LocalCache * FS :=
  match cache c !! k with
  | Some entry =>
      let c' := with_cache c (<[k := bumpFailure entry]> (cache c)) in
      (c', saveCache c' fs)
  | None => (c, fs)
  end.

Definition delete_ (k : string) (c : LocalCache) (fs : FS) : bool * (LocalCache * FS) :=
  match cache c !! k with
  | Some _ =>
      let c' := with_cache c (delete k (cache c)) in
      (true, (c', saveCache c' fs))
  | None => (false, (c, fs))
  end.

Definition clear (c : LocalCache) (fs : FS) : LocalCache * FS :=
  let c' := with_cache c ∅ in
  (c', saveCache c' fs).

Definition getStatistics (c : LocalCache) : CacheStatistics :=
  let totalRequests := (hits c + misses c)%N in
  let rate :=
    if (0 <? totalRequests)%N
    then PrimFloat.mul (PrimFloat.div (Number_of_N (hits c)) (Number_of_N totalRequests)) 100
    else 0%float in
  {| totalEntries := size (cache c);
     hitRate := PrimFloat.div (Math_round (PrimFloat.mul rate 100)) 100;
     totalHits := hits c;
     totalMisses := misses c |}.

Definition getAllEntries (c : LocalCache) : gmap string CacheEntry := cache c.

End Store.

(** ** Configuration ([src/config/config-manager.ts]) *)

Record SelfHealingConfig : Type := {
  useSmartLocator : bool;
  runWithSmartLocator : bool;
  cfg_cachePath : string;
  openApiModel : string;
  openApiKey : string;
  cacheExpirationDays : Z;
  maxRetries : Z;
  timeout : Z;
  enableLogging : bool;
  logLevel : string
}.

(** A [Partial<SelfHealingConfig>], restricted to the fields that the
    modelled code reads or that [updateConfig] is called with. *)
Record ConfigUpdates : Type := {
  upd_useSmartLocator : option bool;
  upd_runWithSmartLocator : option bool;
  upd_cachePath : option string;
  upd_openApiKey : option string;
  upd_cacheExpirationDays : option Z
}.

Definition updateConfig (updates : ConfigUpdates) (c : SelfHealingConfig) : SelfHealingConfig :=
  {| useSmartLocator := default (useSmartLocator c) (upd_useSmartLocator updates);
     runWithSmartLocator := default (runWithSmartLocator c) (upd_runWithSmartLocator updates);
     cfg_cachePath := default (cfg_cachePath c) (upd_cachePath updates);
     openApiModel := openApiModel c;
     openApiKey := default (openApiKey c) (upd_openApiKey updates);
     cacheExpirationDays := default (cacheExpirationDays c) (upd_cacheExpirationDays updates);
     maxRetries := maxRetries c;
     timeout := timeout c;
     enableLogging := enableLogging c;
     logLevel := logLevel c |}.

(** [!!s] on a string. *)
Definition nonempty (s : string) : bool := negb (String.eqb s "").

Definition isSmartLocatorEnabled (c : SelfHealingConfig) : bool :=
  useSmartLocator c && nonempty (openApiKey c).

Definition shouldRunWithSmartLocator (c : SelfHealingConfig) : bool :=
  runWithSmartLocator c && isSmartLocatorEnabled c.

(** ** Errors ([src/core/self-healing-locator-error.ts]) *)

Inductive exn : Type :=
  | SelfHealingLocatorError (message : string) (original : string) (suggested : option string)
  | Error (message : string).

Definition exn_message (e : exn) : string :=
  match e with
  | SelfHealingLocatorError m _ _ => m
  | Error m => m
  end.

(** [String.prototype.includes]. *)
Fixpoint includes (needle hay : string) : bool :=
  String.prefix needle hay
  || match hay with
     | EmptyString => false
     | String _ rest => includes needle rest
     end.

(** ** The collaborators of a resolution *)

(** The page: whether [page.locator(l).first().waitFor({state: "attached",
    timeout})] and [page.locator(l).waitFor({state: "attached", timeout})]
    return rather than throw. *)
Record Page : Type := {
  waitForFirst : string → Z → bool;
  waitFor : string → Z → bool
}.

(** The parsed reply of the provider, its fields of the declared types;
    [callOpenAI] checks that [locator] and [strategy] are truthy. *)
Record LocatorGenerationResponse : Type := {
  locator : string;
  resp_strategy : string;
  confidence : Z;
  reasoning : option string
}.

Record SelfHealingOptions : Type := {
  opt_timeout : option Z;
  elementDescription : option string
}.

Record LocatorGenerationRequest : Type := {
  req_originalLocator : string;
  req_page : Page;
  errorMessage : option string;
  req_elementDescription : option string
}.

(** The calls made on the [Logger], in order. *)
Inductive LogCall : Type :=
  | LogCacheHit (original cached : string)
  | LogCacheMiss (original : string)
  | LogApiCall (model : string)
  | LogSmartLocatorGeneration (original generated strategy : string)
  | LogSelfHealingSuccess (original healed : string)
  | LogSelfHealingFailure (original error : string)
  | LogError (message : string)
  | LogWarn (message : string).

#[global] Instance LogCall_eq_dec : EqDecision LogCall.
Proof. solve_decision. Defined.

(** ** The generator and the process state *)

Record SmartLocatorGenerator : Type := {
  openai : bool;                   (* whether the client was created *)
  gen_config : SelfHealingConfig;  (* the copy taken by the constructor *)
  gen_cache : LocalCache
}.

Record World : Type := {
  config : SelfHealingConfig;      (* the [ConfigManager] singleton *)
  generator : SmartLocatorGenerator;
  disk : FS;
  log : list LogCall
}.

(** Computations that read and write the process state and may throw;
    what was written before a [throw] stays written. *)
Inductive result (A : Type) : Type :=
  | Ok (a : A)
  | Throw (e : exn).
Arguments Ok {A} a.
Arguments Throw {A} e.

(** ** The construction of a store

    [new LocalCache(cachePath)] runs [ensureCacheDirectory] first, outside
    every [try]: an error of [mkdirSync] leaves the constructor, and with it
    [getInstance]. Directories are not part of [FS]; what [path.dirname],
    [fs.existsSync] on a directory and [fs.mkdirSync] do is given. *)
Record Directories : Type := {
  dirname : string → string;
  existsSync : string → bool;
  mkdirSync : string → option string   (* the message of the error thrown, if any *)
}.

Definition ensureCacheDirectory (d : Directories) (cachePath : string) : result unit :=
  let dir := dirname d cachePath in
  if existsSync d dir then Ok tt
  else match mkdirSync d dir with
       | Some message => Throw (Error message)
       | None => Ok tt
       end.

Definition LocalCache_constructor (getTime : string → option Z) (d : Directories)
    (now : Z) (path : string) (fs : FS) : result LocalCache :=
  match ensureCacheDirectory d path with
  | Ok _ => Ok (new_LocalCache getTime now path fs)
  | Throw e => Throw e
  end.

Definition LocalCache_getInstance (getTime : string → option Z) (d : Directories)
    (instance : option LocalCache) (now : Z) (path : string) (fs : FS)
    : result LocalCache :=
  match instance with
  | None => LocalCache_constructor getTime d now path fs
  | Some c =>
      if decide (cachePath c = path) then Ok c
      else LocalCache_constructor getTime d now path fs
  end.

Definition M (A : Type) : Type := World → result A * World.

Definition ret {A} (a : A) : M A := λ w, (Ok a, w).

Definition bind {A B} (m : M A) (f : A → M B) : M B :=
  λ w, match m w with
       | (Ok a, w') => f a w'
       | (Throw e, w') => (Throw e, w')
       end.

Definition throw {A} (e : exn) : M A := λ w, (Throw e, w).

Definition try_catch {A} (m : M A) (handler : exn → M A) : M A :=
  λ w, match m w with
       | (Ok a, w') => (Ok a, w')
       | (Throw e, w') => handler e w'
       end.

#[global] Instance M_ret : MRet M := @ret.
#[global] Instance M_bind : MBind M := λ A B f m, bind m f.

(** The generator's store, and the state with the store and the disk
    replaced, or with calls added to the log. *)
Definition store (w : World) : LocalCache := gen_cache (generator w).

Definition with_store (c : LocalCache) (fs : FS) (w : World) : World :=
  {| config := config w;
     generator := {| openai := openai (generator w);
                     gen_config := gen_config (generator w);
                     gen_cache := c |};
     disk := fs;
     log := log w |}.

Definition with_log (calls : list LogCall) (w : World) : World :=
  {| config := config w; generator := generator w; disk := disk w;
     log := log w ++ calls |}.

(** The state after a stretch of a resolution: a new store, a new disk
    and more calls in the log. *)
Definition evolve (w : World) (c : LocalCache) (fs : FS) (calls : list LogCall) : World :=
  with_log calls (with_store c fs w).

Definition logCall (c : LogCall) : M unit := λ w, (Ok tt, with_log [c] w).

Definition getConfigManager : M SelfHealingConfig := λ w, (Ok (config w), w).

Definition getGenerator : M SmartLocatorGenerator := λ w, (Ok (generator w), w).

(** Runs a method of the generator's [LocalCache] that also touches the
    disk. *)
Definition onCache (f : LocalCache → FS → LocalCache * FS) : M unit :=
  λ w, (Ok tt, with_store (f (store w) (disk w)).1 (f (store w) (disk w)).2 w).

Definition cacheGet (k : string) : M (option CacheEntry) :=
  λ w, ((Ok (get k (store w)).1), with_store (get k (store w)).2 (disk w) w).

(** ** [SmartLocatorGenerator] ([src/core/smart-locator-generator.ts]) *)

(** What surrounds a resolution: the clock read by [LocalCache.set] and the
    reply of the chat completion to the prompt built from the request and
    the page context, [None] when the call throws, the reply is empty or it
    is not JSON. The extraction of the page context changes no state; the
    warnings that it logs when the page refuses are not recorded. *)
Record Env : Type := {
  now : Z;
  completion : LocatorGenerationRequest → option LocatorGenerationResponse
}.

Section Resolver.

Variable toISOString : Z → string.
Variable getTime : string → option Z.
Variable env : Env.

(** The constructor, when [LocalCache.getInstance] returns: the
    configuration is copied once, the store is opened on [config.cachePath]
    and the client exists when a key is configured. *)
Definition new_SmartLocatorGenerator
    (cfg : SelfHealingConfig) (instance : option LocalCache) (fs : FS) : SmartLocatorGenerator :=
  {| openai := nonempty (openApiKey cfg);
     gen_config := cfg;
     gen_cache := getInstance getTime instance (now env) (cfg_cachePath cfg) fs |}.

(** The argument of [this.cache.set] in [generateSmartLocator]. *)
Definition responseEntry (originalLocator : string) (r : LocatorGenerationResponse)
    : NewEntry :=
  {| ne_originalLocator := originalLocator;
     ne_generatedLocator := locator r;
     ne_strategy := resp_strategy r |}.

Definition callOpenAI (request : LocatorGenerationRequest)
    : M (option LocatorGenerationResponse) :=
  g ← getGenerator;
  logCall (LogApiCall (openApiModel (gen_config g)));;
  match completion env request with
  | None => logCall (LogError "OpenAI API call failed");; ret None
  | Some parsed =>
      if negb (nonempty (locator parsed)) || negb (nonempty (resp_strategy parsed))
      then logCall (LogError "OpenAI API call failed");; ret None
      else ret (Some parsed)
  end.

Definition generateSmartLocator (request : LocatorGenerationRequest) : M (option string) :=
  try_catch
    (cachedEntry ← cacheGet (req_originalLocator request);
     match cachedEntry with
     | Some entry =>
         logCall (LogCacheHit (req_originalLocator request) (generatedLocator entry));;
         ret (Some (generatedLocator entry))
     | None =>
         logCall (LogCacheMiss (req_originalLocator request));;
         g ← getGenerator;
         if negb (openai g)
         then logCall (LogError "OpenAI client not initialized. Cannot generate smart locator.");;
              ret None
         else
           response ← callOpenAI request;
           match response with
           | Some r =>
               onCache (set toISOString (now env) (req_originalLocator request)
                          (responseEntry (req_originalLocator request) r));;
               logCall (LogSmartLocatorGeneration
                          (req_originalLocator request) (locator r) (resp_strategy r));;
               ret (Some (locator r))
           | None => ret None
           end
     end)
    (λ error,
       logCall (LogSelfHealingFailure (req_originalLocator request) (exn_message error));;
       ret None).

Definition validateLocator (page : Page) (loc : string) (timeout : Z) : bool :=
  waitFor page loc timeout.

Definition updateCacheSuccess (originalLocator : string) : M unit :=
  onCache (updateSuccess originalLocator).

Definition updateCacheFailure (originalLocator : string) : M unit :=
  onCache (updateFailure originalLocator).

(** ** [PlaywrightSelfHealing] ([src/extensions/playwright-extensions.ts]) *)

Definition nl : string := String (Ascii.ascii_of_nat 10) EmptyString.

Definition disabledMessage (originalLocator : string) : string :=
  "Locator failed and smart locator is disabled: " +:+ originalLocator.

Definition generationFailedMessage (originalLocator : string) : string :=
  "Smart locator generation failed for: " +:+ originalLocator.

Definition validationFailedMessage (originalLocator : string) : string :=
  "Smart locator validation failed for: " +:+ originalLocator.

Definition suggestionMessage (originalLocator smartLocator : string) : string :=
  nl +:+ "Locator has been changed from:" +:+ nl
  +:+ "    Old: " +:+ originalLocator +:+ nl
  +:+ "    New: " +:+ smartLocator +:+ nl
  +:+ "Please review and update the locator or create a bug".

Definition timeoutOf (options : SelfHealingOptions) : Z :=
  default 5000 (opt_timeout options).

Definition generationRequest
    (page : Page) (originalLocator : string) (options : SelfHealingOptions)
    : LocatorGenerationRequest :=
  {| req_originalLocator := originalLocator;
     req_page := page;
     errorMessage := Some "Element not found with original locator";
     req_elementDescription := elementDescription options |}.

(** A string-or-null is falsy when it is [null] or empty. *)
Definition resolveSmartLocator
    (page : Page) (originalLocator : string) (options : SelfHealingOptions) : M string :=
  cfg ← getConfigManager;
  if negb (isSmartLocatorEnabled cfg)
  then throw (SelfHealingLocatorError (disabledMessage originalLocator) originalLocator None)
  else
    smartLocator ← generateSmartLocator (generationRequest page originalLocator options);
    match smartLocator with
    | Some smart =>
        if nonempty smart
        then
          if validateLocator page smart (timeoutOf options)
          then
            updateCacheSuccess originalLocator;;
            logCall (LogSelfHealingSuccess originalLocator smart);;
            ret smart
          else
            updateCacheFailure originalLocator;;
            logCall (LogSelfHealingFailure originalLocator
                       (validationFailedMessage originalLocator));;
            throw (SelfHealingLocatorError
                     (validationFailedMessage originalLocator) originalLocator (Some smart))
        else
          logCall (LogSelfHealingFailure originalLocator
                     (generationFailedMessage originalLocator));;
          throw (SelfHealingLocatorError
                   (generationFailedMessage originalLocator) originalLocator None)
    | None =>
        logCall (LogSelfHealingFailure originalLocator
                   (generationFailedMessage originalLocator));;
        throw (SelfHealingLocatorError
                 (generationFailedMessage originalLocator) originalLocator None)
    end.

(** The returned [Locator] is represented by the selector it was made
    from. *)
Definition getLocatorWithWait
    (page : Page) (originalLocator : string) (options : SelfHealingOptions) : M string :=
  if waitForFirst page originalLocator (timeoutOf options)
  then ret originalLocator
  else
    smartLocator ← resolveSmartLocator page originalLocator options;
    cfg ← getConfigManager;
    if shouldRunWithSmartLocator cfg
    then ret smartLocator
    else
      logCall (LogWarn (suggestionMessage originalLocator smartLocator));;
      throw (Error (suggestionMessage originalLocator smartLocator)).

Definition exists_
    (page : Page) (originalLocator : string) (options : SelfHealingOptions) : M bool :=
  try_catch
    (getLocatorWithWait page originalLocator
       {| opt_timeout := Some (timeoutOf options);
          elementDescription := elementDescription options |};;
     ret true)
    (λ _, ret false).

End Resolver.

(** The errors with which a resolution ends: healing disabled, generation
    failed, validation failed (with the candidate) and review required. *)
Definition structuredFailure (originalLocator : string) (e : exn) : Prop :=
  e = SelfHealingLocatorError (disabledMessage originalLocator) originalLocator None
  ∨ e = SelfHealingLocatorError (generationFailedMessage originalLocator) originalLocator None
  ∨ (∃ smart, e = SelfHealingLocatorError
                    (validationFailedMessage originalLocator) originalLocator (Some smart))
  ∨ (∃ smart, e = Error (suggestionMessage originalLocator smart)).

(** ** Sequences of calls on a store *)

Inductive StoreCall : Type :=
  | CallGet (k : string)
  | CallSet (now : Z) (k : string) (entry : NewEntry)
  | CallUpdateSuccess (k : string)
  | CallUpdateFailure (k : string)
  | CallDelete (k : string)
  | CallClear
  | CallSaveCache
  | CallGetStatistics
  | CallGetAllEntries.

Definition isGet (op : StoreCall) : bool :=
  match op with CallGet _ => true | _ => false end.

Section Calls.

Variable toISOString : Z → string.

Definition call (s : LocalCache * FS) (op : StoreCall) : LocalCache * FS :=
  match op with
  | CallGet k => ((get k s.1).2, s.2)
  | CallSet now k entry => set toISOString now k entry s.1 s.2
  | CallUpdateSuccess k => updateSuccess k s.1 s.2
  | CallUpdateFailure k => updateFailure k s.1 s.2
  | CallDelete k => (delete_ k s.1 s.2).2
  | CallClear => clear s.1 s.2
  | CallSaveCache => (s.1, saveCache s.1 s.2)
  | CallGetStatistics | CallGetAllEntries => s
  end.

Definition calls (ops : list StoreCall) (s : LocalCache * FS) : LocalCache * FS :=
  foldl call s ops.

(** One [set] per element: the time of the call, the key and the entry. *)
Definition Write : Type := Z * string * NewEntry.

Definition writeKey (w : Write) : string := w.1.2.

Definition written (w : Write) : CacheEntry :=
  {| originalLocator := ne_originalLocator w.2;
     generatedLocator := ne_generatedLocator w.2;
     strategy := ne_strategy w.2;
     timestamp := toISOString w.1.1;
     successCount := 0;
     failureCount := 0 |}.

Definition setAll (ws : list Write) (s : LocalCache * FS) : LocalCache * FS :=
  foldl (λ s w, set toISOString w.1.1 w.1.2 w.2 s.1 s.2) s ws.

End Calls.

(** ** Sample data for the examples *)

Module Sample.

(** The date library on four instants of January 2025 (UTC), the only
    ones that the examples use. *)
Definition toISOString (t : Z) : string :=
  if t =? 1735689600000 then "2025-01-01T00:00:00.000Z"
  else if t =? 1735819200000 then "2025-01-02T12:00:00.000Z"
  else if t =? 1735862400000 then "2025-01-03T00:00:00.000Z"
  else if t =? 1735948800000 then "2025-01-04T00:00:00.000Z"
  else "1970-01-01T00:00:00.000Z".

Definition getTime (s : string) : option Z :=
  if String.eqb s "2025-01-01T00:00:00.000Z" then Some 1735689600000
  else if String.eqb s "2025-01-02T12:00:00.000Z" then Some 1735819200000
  else if String.eqb s "2025-01-03T00:00:00.000Z" then Some 1735862400000
  else if String.eqb s "2025-01-04T00:00:00.000Z" then Some 1735948800000
  else if String.eqb s "1970-01-01T00:00:00.000Z" then Some 0
  else None.

Definition jan1 : Z := 1735689600000.
Definition jan2noon : Z := 1735819200000.
Definition jan3 : Z := 1735862400000.
Definition jan4 : Z := 1735948800000.

Definition path : string := "cache/locator_cache.json".

Definition emptyDisk : FS := {| files := ∅; writable := true |}.

Definition emptyStore : LocalCache :=
  {| cache := ∅; cachePath := path; hits := 0; misses := 0 |}.

Definition submit : NewEntry :=
  {| ne_originalLocator := "#old-id";
     ne_generatedLocator := "[data-testid=submit]";
     ne_strategy := "DATA_TESTID" |}.

Definition login : NewEntry :=
  {| ne_originalLocator := "#login";
     ne_generatedLocator := "button.login";
     ne_strategy := "CSS" |}.

Definition submitEntry (ts : string) (ok ko : Z) : CacheEntry :=
  {| originalLocator := "#old-id";
     generatedLocator := "[data-testid=submit]";
     strategy := "DATA_TESTID";
     timestamp := ts;
     successCount := ok;
     failureCount := ko |}.

(** A document with one well-formed entry and one whose [successCount] is
    a string. *)
Definition mixedObject : gmap string json :=
  list_to_map
    [ ("#old-id", entryJson (submitEntry "2025-01-03T00:00:00.000Z" 4 1));
      ("#broken", JObj (list_to_map
         [ ("originalLocator", JStr "#broken");
           ("generatedLocator", JStr "a.broken");
           ("strategy", JStr "CSS");
           ("timestamp", JStr "2025-01-03T00:00:00.000Z");
           ("successCount", JStr "0");
           ("failureCount", JNum 0) ])) ].

Definition mixedDocument : json := JObj mixedObject.

(** A store that holds a used entry for [#old-id]. *)
Definition usedStore : LocalCache :=
  {| cache := {[ "#old-id" := submitEntry "2025-01-01T00:00:00.000Z" 4 1 ]};
     cachePath := path; hits := 5; misses := 2 |}.

Definition twoWrites : list Write :=
  [ (jan1, "#old-id", submit); (jan3, "#login", login) ].

Definition mixedDisk : FS :=
  {| files := {[ path := Document mixedDocument ]}; writable := true |}.

(** Pages on which the original locators do not attach: on [page] only
    [button.submit] attaches, on [oldPage] only [[data-testid=submit]], on
    [blankPage] nothing. *)
Definition page : Page :=
  {| waitForFirst := λ _ _, false;
     waitFor := λ l _, String.eqb l "button.submit" |}.

Definition oldPage : Page :=
  {| waitForFirst := λ _ _, false;
     waitFor := λ l _, String.eqb l "[data-testid=submit]" |}.

Definition blankPage : Page :=
  {| waitForFirst := λ _ _, false; waitFor := λ _ _, false |}.

Definition reply : LocatorGenerationResponse :=
  {| locator := "button.submit"; resp_strategy := "CSS";
     confidence := 80; reasoning := None |}.

Definition env : Env := {| now := jan3; completion := λ _, Some reply |}.

Definition options : SelfHealingOptions :=
  {| opt_timeout := None; elementDescription := Some "Submit button" |}.

Definition configOf (use run : bool) (key : string) (days : Z) : SelfHealingConfig :=
  {| useSmartLocator := use;
     runWithSmartLocator := run;
     cfg_cachePath := path;
     openApiModel := "gpt-4o-mini";
     openApiKey := key;
     cacheExpirationDays := days;
     maxRetries := 3;
     timeout := 30000;
     enableLogging := true;
     logLevel := "info" |}.

Definition discovery : SelfHealingConfig := configOf true false "sk-test" 2.
Definition healing : SelfHealingConfig := configOf true true "sk-test" 2.
Definition disabled : SelfHealingConfig := configOf false true "sk-test" 2.

(** A process whose generator was built with a key and whose store holds
    the entries [m]. *)
Definition world (cfg : SelfHealingConfig) (m : gmap string CacheEntry) : World :=
  {| config := cfg;
     generator :=
       {| openai := true;
          gen_config := cfg;
          gen_cache := {| cache := m; cachePath := path; hits := 0; misses := 0 |} |};
     disk := emptyDisk;
     log := [] |}.

Definition cached : gmap string CacheEntry :=
  {[ "#old-id" := submitEntry "2025-01-03T00:00:00.000Z" 0 0 ]}.

(** The state that the failed resolution of [#missing] on [blankPage]
    leaves. *)
Definition poisoned : World :=
  (getLocatorWithWait toISOString env blankPage "#missing" options (world healing ∅)).2.

(** A configuration that asks for an expiry of one day, and a file whose
    entry is 36 hours old on [jan4]. *)
Definition oneDay : SelfHealingConfig := configOf true true "sk-test" 1.

Definition laterEnv : Env := {| now := jan4; completion := λ _, Some reply |}.

Definition agedDisk : FS :=
  {| files :=
       {[ path := Document (cacheObject
                    {[ "#old-id" := submitEntry "2025-01-02T12:00:00.000Z" 4 1 ]}) ]};
     writable := true |}.

(** A [set], then [h] calls of [get] that hit and [m] that miss. *)
Definition requests (h m : nat) : list StoreCall :=
  CallSet jan3 "#old-id" submit
  :: replicate h (CallGet "#old-id") ++ replicate m (CallGet "#missing").

End Sample.

(** * Further operations *)

(** ** The configuration read from the environment
    ([src/config/config-manager.ts]) *)

(** [process.env.K || d]: the value of the variable unless it is unset or
    empty. *)
Definition envOr (vars : gmap string string) (k d : string) : string :=
  match vars !! k with
  | Some v => if nonempty v then v else d
  | None => d
  end.

(** [process.env.K === "true"]. *)
Definition envIsTrue (vars : gmap string string) (k : string) : bool :=
  bool_decide (vars !! k = Some "true").

(** [if (process.env.K)]. *)
Definition envSet (vars : gmap string string) (k : string) : bool :=
  match vars !! k with
  | Some v => nonempty v
  | None => false
  end.

Definition defaultConfig (vars : gmap string string) : SelfHealingConfig :=
  {| useSmartLocator := envIsTrue vars "USE_SMART_LOCATOR";
     runWithSmartLocator := envIsTrue vars "RUN_WITH_SMART_LOCATOR";
     cfg_cachePath := envOr vars "CACHE_PATH" "cache/locator_cache.json";
     openApiModel := envOr vars "OPENAI_MODEL" "gpt-4o-mini";
     openApiKey := envOr vars "OPENAI_API_KEY" "";
     cacheExpirationDays := 2;
     maxRetries := 3;
     timeout := 30000;
     enableLogging := true;
     logLevel := "info" |}.

Definition loadConfig (vars : gmap string string) (c : SelfHealingConfig) : SelfHealingConfig :=
  {| useSmartLocator :=
       if envSet vars "USE_SMART_LOCATOR"
       then envIsTrue vars "USE_SMART_LOCATOR" else useSmartLocator c;
     runWithSmartLocator :=
       if envSet vars "RUN_WITH_SMART_LOCATOR"
       then envIsTrue vars "RUN_WITH_SMART_LOCATOR" else runWithSmartLocator c;
     cfg_cachePath :=
       if envSet vars "CACHE_PATH"
       then default "" (vars !! "CACHE_PATH") else cfg_cachePath c;
     openApiModel :=
       if envSet vars "OPENAI_MODEL"
       then default "" (vars !! "OPENAI_MODEL") else openApiModel c;
     openApiKey :=
       if envSet vars "OPENAI_API_KEY"
       then default "" (vars !! "OPENAI_API_KEY") else openApiKey c;
     cacheExpirationDays := cacheExpirationDays c;
     maxRetries := maxRetries c;
     timeout := timeout c;
     enableLogging := enableLogging c;
     logLevel := logLevel c |}.

(** The constructor: a copy of [defaultConfig], which the module computed
    from the environment [atImport], then [loadConfig] on the environment
    of the moment. *)
Definition new_ConfigManager (atImport vars : gmap string string) : SelfHealingConfig :=
  loadConfig vars (defaultConfig atImport).

(** ** The logger ([src/utils/logger.ts]) *)

Inductive LogLevel : Type := ERROR | WARN | INFO | DEBUG.

#[global] Instance LogLevel_eq_dec : EqDecision LogLevel.
Proof. solve_decision. Defined.

Definition levelNumber (l : LogLevel) : Z :=
  match l with ERROR => 0 | WARN => 1 | INFO => 2 | DEBUG => 3 end.

Record Logger : Type := {
  lg_logLevel : LogLevel;
  lg_enableLogging : bool
}.

Definition Logger_getInstance
    (instance : option Logger) (level : LogLevel) (enableLogging : bool) : Logger :=
  match instance with
  | None => {| lg_logLevel := level; lg_enableLogging := enableLogging |}
  | Some l => l
  end.

Definition shouldLog (l : Logger) (level : LogLevel) : bool :=
  lg_enableLogging l && (levelNumber level <=? levelNumber (lg_logLevel l)).

(** [SmartLocatorGenerator.getLogLevel]. *)
Definition getLogLevel (level : string) : LogLevel :=
  if String.eqb level "error" then ERROR
  else if String.eqb level "warn" then WARN
  else if String.eqb level "info" then INFO
  else if String.eqb level "debug" then DEBUG
  else INFO.

(** The level at which each method of the logger writes. *)
Definition callLevel (c : LogCall) : LogLevel :=
  match c with
  | LogCacheHit _ _ | LogCacheMiss _ => DEBUG
  | LogApiCall _ | LogSmartLocatorGeneration _ _ _ | LogSelfHealingSuccess _ _ => INFO
  | LogWarn _ => WARN
  | LogSelfHealingFailure _ _ | LogError _ => ERROR
  end.

(** The calls that write a line on the console; the text of the line is
    not represented. *)
Definition console (l : Logger) (calls : list LogCall) : list LogCall :=
  filter (λ c, shouldLog l (callLevel c) = true) calls.

(** ** The actions of [PlaywrightSelfHealing]
    ([src/extensions/playwright-extensions.ts]) *)

(** What is asked of a [Locator], by selector. *)
Inductive Action : Type :=
  | AClick (l : string)
  | AClear (l : string)
  | AFill (l text : string)
  | AWaitFor (l state : string) (timeout : Z)
  | ATextContent (l : string)
  | AInnerText (l : string).

(** How the page answers: an action either is done ([None]) or throws, a
    read returns or throws. *)
Record Driver : Type := {
  doClick : string → option exn;
  doClear : string → option exn;
  doFill : string → string → option exn;
  doWaitFor : string → string → Z → option exn;
  doTextContent : string → result (option string);
  doInnerText : string → result string
}.

Definition outcome (r : option exn) : result unit :=
  match r with
  | None => Ok tt
  | Some e => Throw e
  end.

(** A resolution followed by what is done with its locator: the result,
    the state and the actions asked of the page, in order. *)
Definition thenAct {A B} (r : result A * World) (k : A → result B * list Action)
    : result B * World * list Action :=
  match r with
  | (Ok a, w') => ((k a).1, w', (k a).2)
  | (Throw e, w') => (Throw e, w', [])
  end.

Record WaitForOptions : Type := {
  wf_options : SelfHealingOptions;
  wf_state : option string
}.

Section Actions.

Variable toISOString : Z → string.
Variable env : Env.
Variable driver : Driver.

Definition getElementWithWait
    (page : Page) (originalLocator : string) (options : SelfHealingOptions) : M string :=
  getLocatorWithWait toISOString env page originalLocator options.

Definition click (page : Page) (originalLocator : string) (options : SelfHealingOptions)
    (w : World) : result unit * World * list Action :=
  thenAct (getLocatorWithWait toISOString env page originalLocator options w)
    (λ l, (outcome (doClick driver l), [AClick l])).

Definition fill (page : Page) (originalLocator text : string) (options : SelfHealingOptions)
    (w : World) : result unit * World * list Action :=
  thenAct (getLocatorWithWait toISOString env page originalLocator options w)
    (λ l, match doClear driver l with
          | Some e => (Throw e, [AClear l])
          | None => (outcome (doFill driver l text), [AClear l; AFill l text])
          end).

Definition waitFor_ (page : Page) (originalLocator : string) (options : WaitForOptions)
    (w : World) : result unit * World * list Action :=
  let state := default "visible" (wf_state options) in
  let timeout := default 30000 (opt_timeout (wf_options options)) in
  thenAct (getLocatorWithWait toISOString env page originalLocator (wf_options options) w)
    (λ l, (outcome (doWaitFor driver l state timeout), [AWaitFor l state timeout])).

Definition textContent (page : Page) (originalLocator : string) (options : SelfHealingOptions)
    (w : World) : result (option string) * World * list Action :=
  thenAct (getLocatorWithWait toISOString env page originalLocator options w)
    (λ l, (doTextContent driver l, [ATextContent l])).

Definition innerText (page : Page) (originalLocator : string) (options : SelfHealingOptions)
    (w : World) : result string * World * list Action :=
  thenAct (getLocatorWithWait toISOString env page originalLocator options w)
    (λ l, (doInnerText driver l, [AInnerText l])).

End Actions.



(** ** Kinds of calls on a store *)

(** The calls that write the file whatever the store holds. *)
Definition saves (op : StoreCall) : bool :=
  match op with
  | CallSet _ _ _ | CallClear | CallSaveCache => true
  | _ => false
  end.

(** The calls that neither add nor remove an entry. *)
Definition keepsKeys (op : StoreCall) : bool :=
  match op with
  | CallSet _ _ _ | CallDelete _ | CallClear => false
  | _ => true
  end.

#[global] Instance NewEntry_eq_dec : EqDecision NewEntry.
Proof. solve_decision. Defined.

#[global] Instance StoreCall_eq_dec : EqDecision StoreCall.
Proof. solve_decision. Defined.

(** How often a call occurs in a sequence. *)
Definition countCalls (op : StoreCall) (ops : list StoreCall) : nat :=
  length (filter (λ o, o = op) ops).

Definition isApiCall (c : LogCall) : bool :=
  match c with LogApiCall _ => true | _ => false end.

(** The file mirrors the memory of the store. *)
Definition mirrored (s : LocalCache * FS) : Prop :=
  files s.2 !! cachePath s.1 = Some (Document (cacheObject (cache s.1))).

(** An entry with numbers added to its counts. *)
Definition counted (e : CacheEntry) (ok ko : Z) : CacheEntry :=
  {| originalLocator := originalLocator e; generatedLocator := generatedLocator e;
     strategy := strategy e; timestamp := timestamp e;
     successCount := successCount e + ok; failureCount := failureCount e + ko |}.

(** An entry after [ok] times [successCount++] and [ko] times
    [failureCount++]. *)
Definition raised (e : CacheEntry) (ok ko : nat) : CacheEntry :=
  {| originalLocator := originalLocator e; generatedLocator := generatedLocator e;
     strategy := strategy e; timestamp := timestamp e;
     successCount := Nat.iter ok increment (successCount e);
     failureCount := Nat.iter ko increment (failureCount e) |}.

(** A file that is absent or unreadable, or a document that is [null], a
    boolean, a number or a string. *)
Definition degenerate (f : option file) : bool :=
  match f with
  | None | Some Garbled => true
  | Some (Document (JNull | JBool _ | JNum _ | JStr _)) => true
  | Some (Document (JArr _ | JObj _)) => false
  end.

(** The paths of [resolveSmartLocator]: for each, the condition under
    which it is taken, the store and the disk it leaves, the calls it logs
    and its result. *)
Definition resolvePath (toISOString : Z → string) (env : Env)
    (page : Page) (orig : string) (options : SelfHealingOptions) (w : World)
    (c : LocalCache) (fs : FS) (calls : list LogCall) (res : result string) : Prop :=
  (isSmartLocatorEnabled (config w) = false
    ∧ c = store w ∧ fs = disk w ∧ calls = []
    ∧ res = Throw (SelfHealingLocatorError (disabledMessage orig) orig None))
   ∨ (isSmartLocatorEnabled (config w) = true
      ∧ ∃ e, cache (store w) !! orig = Some e
        ∧ ((nonempty (generatedLocator e) = false
            ∧ c = countHit (store w) ∧ fs = disk w
            ∧ calls = [LogCacheHit orig (generatedLocator e);
                       LogSelfHealingFailure orig (generationFailedMessage orig)]
            ∧ res = Throw (SelfHealingLocatorError
                             (generationFailedMessage orig) orig None))
           ∨ (nonempty (generatedLocator e) = true
              ∧ waitFor page (generatedLocator e) (timeoutOf options) = true
              ∧ c = (updateSuccess orig (countHit (store w)) (disk w)).1
              ∧ fs = (updateSuccess orig (countHit (store w)) (disk w)).2
              ∧ calls = [LogCacheHit orig (generatedLocator e);
                         LogSelfHealingSuccess orig (generatedLocator e)]
              ∧ res = Ok (generatedLocator e))
           ∨ (nonempty (generatedLocator e) = true
              ∧ waitFor page (generatedLocator e) (timeoutOf options) = false
              ∧ c = (updateFailure orig (countHit (store w)) (disk w)).1
              ∧ fs = (updateFailure orig (countHit (store w)) (disk w)).2
              ∧ calls = [LogCacheHit orig (generatedLocator e);
                         LogSelfHealingFailure orig (validationFailedMessage orig)]
              ∧ res = Throw (SelfHealingLocatorError
                               (validationFailedMessage orig) orig
                               (Some (generatedLocator e))))))
   ∨ (isSmartLocatorEnabled (config w) = true
      ∧ cache (store w) !! orig = None
      ∧ ((openai (generator w) = false
          ∧ c = countMiss (store w) ∧ fs = disk w
          ∧ calls = [LogCacheMiss orig;
                     LogError
                       "OpenAI client not initialized. Cannot generate smart locator.";
                     LogSelfHealingFailure orig (generationFailedMessage orig)]
          ∧ res = Throw (SelfHealingLocatorError
                           (generationFailedMessage orig) orig None))
         ∨ (openai (generator w) = true
            ∧ c = countMiss (store w) ∧ fs = disk w
            ∧ calls = [LogCacheMiss orig;
                       LogApiCall (openApiModel (gen_config (generator w)));
                       LogError "OpenAI API call failed";
                       LogSelfHealingFailure orig (generationFailedMessage orig)]
            ∧ res = Throw (SelfHealingLocatorError
                             (generationFailedMessage orig) orig None))
         ∨ (openai (generator w) = true
            ∧ ∃ r ok ko,
                nonempty (locator r) = true
                ∧ ((ok = 1 ∧ ko = 0 ∧ res = Ok (locator r)
                    ∧ calls = [LogCacheMiss orig;
                               LogApiCall (openApiModel (gen_config (generator w)));
                               LogSmartLocatorGeneration
                                 orig (locator r) (resp_strategy r);
                               LogSelfHealingSuccess orig (locator r)])
                   ∨ (ok = 0 ∧ ko = 1
                      ∧ res = Throw (SelfHealingLocatorError
                                       (validationFailedMessage orig) orig
                                       (Some (locator r)))
                      ∧ calls = [LogCacheMiss orig;
                                 LogApiCall (openApiModel (gen_config (generator w)));
                                 LogSmartLocatorGeneration
                                   orig (locator r) (resp_strategy r);
                                 LogSelfHealingFailure
                                   orig (validationFailedMessage orig)]))
                ∧ cache c
                    = <[orig := counted (written toISOString
                                           (now env, orig, responseEntry orig r))
                                        ok ko]> (cache (store w))
                ∧ hits c = hits (store w)
                ∧ misses c = (misses (store w) + 1)%N
                ∧ cachePath c = cachePath (store w)))).

(** ** More sample data *)

Module Scenario.

(** Reads and updates on a store. *)
Definition updates : list StoreCall :=
  [ CallGet "#old-id"; CallUpdateSuccess "#old-id"; CallUpdateFailure "#old-id";
    CallUpdateSuccess "#old-id"; CallUpdateSuccess "#other"; CallGetStatistics ].

(** Calls of which the first writes the file. *)
Definition mutations : list StoreCall :=
  [ CallSet Sample.jan3 "#old-id" Sample.submit; CallUpdateSuccess "#old-id";
    CallDelete "#nope"; CallGet "#old-id" ].

Definition readOnlyDisk : FS := {| files := ∅; writable := false |}.

(** A store whose entry for [#old-id] has counted 2^53 successes. *)
Definition fullStore : LocalCache :=
  {| cache := {[ "#old-id" := Sample.submitEntry "2025-01-01T00:00:00.000Z" (2 ^ 53) 1 ]};
     cachePath := Sample.path; hits := 0; misses := 0 |}.

Definition stringDisk : FS :=
  {| files := {[ Sample.path := Document (JStr "ab") ]}; writable := true |}.

Definition arrayDisk : FS :=
  {| files :=
       {[ Sample.path :=
            Document (JArr [ JNum 5;
                             entryJson
                               (Sample.submitEntry "2025-01-03T00:00:00.000Z" 0 0) ]) ]};
     writable := true |}.

Definition quiet : Logger := {| lg_logLevel := ERROR; lg_enableLogging := true |}.
Definition chatty : Logger := {| lg_logLevel := DEBUG; lg_enableLogging := true |}.

Definition trace : list LogCall :=
  [ LogCacheMiss "#missing"; LogApiCall "gpt-4o-mini";
    LogError "OpenAI API call failed";
    LogSelfHealingFailure "#missing" "Smart locator generation failed for: #missing" ].

Definition variables : gmap string string :=
  {[ "USE_SMART_LOCATOR" := "true"; "OPENAI_API_KEY" := "sk-test";
     "RUN_WITH_SMART_LOCATOR" := "1" ]}.

(** A process whose generator was built before a key was configured. *)
Definition lateKeyWorld : World :=
  {| config := Sample.healing;
     generator :=
       new_SmartLocatorGenerator Sample.getTime Sample.env
         (Sample.configOf true true "" 2) None Sample.emptyDisk;
     disk := Sample.emptyDisk;
     log := [] |}.

(** A page that takes every action. *)
Definition driver : Driver :=
  {| doClick := λ _, None;
     doClear := λ _, None;
     doFill := λ _ _, None;
     doWaitFor := λ _ _ _, None;
     doTextContent := λ _, Ok (Some "Submit");
     doInnerText := λ _, Ok "Submit" |}.

(** Counts around the ends of the binades: below and at 2^53, where the
    successor stops being a number, and beyond. *)
Definition counts : list Z :=
  [0; 1; 41; -1; -2; 2^52; 2^53 - 2; 2^53 - 1; 2^53; 2^53 + 2; 2^53 + 4; 2^53 + 6;
   2^54 - 2; 2^54; 2^54 + 4; 2^54 + 8; 2^55 - 4; 2^60; 2^62; 2^62 + 2^10; 2^63 - 2^10;
   - 2^53 + 1; - 2^53; - 2^53 - 2; - 2^53 - 4; - 2^54 + 2; - 2^54; - 2^54 - 4;
   - 2^55; - 2^55 - 8; - 2^62].

End Scenario.

(** * Properties *)

(** ** Numbers *)

(** On the sample counts, [increment] is the float addition of 1. *)
Lemma increment_is_addition :
  Forall (λ n, Z_of_Number (Number_of_Z n) = Some n
               ∧ Z_of_Number (PrimFloat.add (Number_of_Z n) 1) = Some (increment n))
         Scenario.counts.
Proof. repeat constructor; vm_compute; reflexivity. Qed.

(** A count from -2^53 up to 2^53 - 1 grows by exactly 1. *)
Lemma increment_exact n : - 2 ^ 53 ≤ n < 2 ^ 53 → increment n = n + 1.
Proof.
  intros Hn. unfold increment, Number_nearest.
  destruct (decide (n + 1 = 2 ^ 53)) as [->|Hne]; [reflexivity|].
  assert (Z.abs (n + 1) < 2 ^ 53) as Habs by lia.
  assert (Z.log2 (Z.abs (n + 1)) < 53) as Hlog.
  { destruct (decide (Z.abs (n + 1) = 0)) as [->|H0]; [done|].
    apply Z.log2_lt_pow2; lia. }
  cbv zeta. rewrite (proj2 (Z.leb_le _ _)) by lia. done.
Qed.

(** At 2^53 a count stays, and at 2^53 + 2 it grows by 2. *)
Lemma increment_absorbed : increment (2 ^ 53) = 2 ^ 53.
Proof. reflexivity. Qed.

Lemma increment_tie : increment (2 ^ 53 + 2) = 2 ^ 53 + 4.
Proof. reflexivity. Qed.

Lemma iter_increment_exact (k : nat) n :
  - 2 ^ 53 ≤ n → n + Z.of_nat k ≤ 2 ^ 53 → Nat.iter k increment n = n + Z.of_nat k.
Proof.
  intros Hlo. induction k as [|k IH]; intros Hhi; simpl Nat.iter; [lia|].
  rewrite IH by lia. rewrite increment_exact by lia. lia.
Qed.

Lemma iter_increment_absorbed (k : nat) : Nat.iter k increment (2 ^ 53) = 2 ^ 53.
Proof. induction k as [|k IH]; [done|]. simpl Nat.iter. rewrite IH. reflexivity. Qed.

(** ** Entries and their JSON form *)

Lemma prop_entryJson (e : CacheEntry) :
  prop (entryJson e) "originalLocator" = Some (JStr (originalLocator e))
  ∧ prop (entryJson e) "generatedLocator" = Some (JStr (generatedLocator e))
  ∧ prop (entryJson e) "strategy" = Some (JStr (strategy e))
  ∧ prop (entryJson e) "timestamp" = Some (JStr (timestamp e))
  ∧ prop (entryJson e) "successCount" = Some (JNum (successCount e))
  ∧ prop (entryJson e) "failureCount" = Some (JNum (failureCount e)).
Proof. repeat split; reflexivity. Qed.

Lemma isValidCacheEntry_entryJson (e : CacheEntry) : isValidCacheEntry (entryJson e) = true.
Proof.
  destruct (prop_entryJson e) as (H1 & H2 & H3 & H4 & H5 & H6).
  unfold isValidCacheEntry. rewrite H1, H2, H3, H4, H5, H6. reflexivity.
Qed.

Lemma asCacheEntry_entryJson (e : CacheEntry) : asCacheEntry (entryJson e) = e.
Proof.
  destruct (prop_entryJson e) as (H1 & H2 & H3 & H4 & H5 & H6).
  unfold asCacheEntry. rewrite H1, H2, H3, H4, H5, H6. by destruct e.
Qed.

(** ** Loading and saving *)

Section StoreFacts.

Variable toISOString : Z → string.
Variable getTime : string → option Z.

Lemma cleanupExpiredEntries_lookup now days (m : gmap string CacheEntry) k :
  cleanupExpiredEntries getTime now days m !! k =
    match m !! k with
    | Some e => if expired getTime now (days * 24 * 60 * 60 * 1000) e then None else Some e
    | None => None
    end.
Proof.
  unfold cleanupExpiredEntries. rewrite map_lookup_filter.
  destruct (m !! k) as [e|]; simpl; [|done].
  case_guard as Hg; simpl in Hg; destruct (expired _ _ _ e); done.
Qed.

Lemma loadEntries_cons kv es (m : gmap string CacheEntry) :
  loadEntries (kv :: es) m =
    loadEntries es (if isValidCacheEntry kv.2 then <[kv.1 := asCacheEntry kv.2]> m else m).
Proof. reflexivity. Qed.

(** The loop keeps, for each key, the entry of a valid value and leaves the
    map alone at an invalid one. *)
Lemma loadEntries_lookup es (m : gmap string CacheEntry) k :
  NoDup es.*1 →
  loadEntries es m !! k =
    match (list_to_map es : gmap string json) !! k with
    | Some v => if isValidCacheEntry v then Some (asCacheEntry v) else m !! k
    | None => m !! k
    end.
Proof.
  revert m. induction es as [|[k0 v0] es IH]; intros m Hnd.
  - unfold loadEntries. simpl. by rewrite lookup_empty.
  - apply NoDup_cons in Hnd as [Hk0 Hnd].
    rewrite loadEntries_cons, IH by done. simpl.
    destruct (decide (k = k0)) as [->|Hne].
    + rewrite lookup_insert_eq.
      rewrite (not_elem_of_list_to_map_1 es k0) by done.
      destruct (isValidCacheEntry v0); [by rewrite lookup_insert_eq|done].
    + rewrite lookup_insert_ne by done.
      destruct (list_to_map es !! k) as [v|]; destruct (isValidCacheEntry v0);
        by rewrite ?lookup_insert_ne.
Qed.

Lemma loadCache_object_lookup now path fs (o : gmap string json) k :
  files fs !! path = Some (Document (JObj o)) →
  loadCache getTime now path fs !! k =
    match o !! k with
    | Some v =>
        if isValidCacheEntry v && negb (expired getTime now loadMaxAge (asCacheEntry v))
        then Some (asCacheEntry v)
        else None
    | None => None
    end.
Proof.
  intros Hf. unfold loadCache. rewrite Hf. simpl.
  rewrite cleanupExpiredEntries_lookup, loadEntries_lookup by apply NoDup_fst_map_to_list.
  rewrite list_to_map_to_list, lookup_empty.
  destruct (o !! k) as [v|]; [|done].
  destruct (isValidCacheEntry v); [|done]. simpl.
  by destruct (expired _ _ _ _).
Qed.

Lemma saveCache_writable c fs :
  writable fs = true →
  files (saveCache c fs) !! cachePath c = Some (Document (cacheObject (cache c)))
  ∧ writable (saveCache c fs) = true.
Proof.
  intros Hw. unfold saveCache, writeFileSync. rewrite Hw. simpl.
  by rewrite lookup_insert_eq.
Qed.

(** Reading back a saved map gives that map less its expired entries. *)
Lemma loadCache_cacheObject now path fs (m : gmap string CacheEntry) :
  files fs !! path = Some (Document (cacheObject m)) →
  loadCache getTime now path fs = cleanupExpiredEntries getTime now 2 m.
Proof.
  intros Hf. apply map_eq; intros k.
  rewrite (loadCache_object_lookup _ _ _ _ _ Hf), cleanupExpiredEntries_lookup.
  rewrite lookup_fmap. destruct (m !! k) as [e|]; simpl; [|done].
  rewrite isValidCacheEntry_entryJson, asCacheEntry_entryJson. simpl.
  by destruct (expired _ _ _ e).
Qed.

(** No entry that [loadCache] returns is older than two days. *)
Lemma loadCache_fresh now path fs k e :
  loadCache getTime now path fs !! k = Some e →
  expired getTime now loadMaxAge e = false.
Proof.
  unfold loadCache.
  destruct (files fs !! path) as [[|j]|]; try by rewrite lookup_empty.
  destruct (Object_entries j) as [es|]; [|by rewrite lookup_empty].
  rewrite cleanupExpiredEntries_lookup.
  destruct (loadEntries es ∅ !! k) as [e'|]; [|done].
  unfold loadMaxAge.
  destruct (expired getTime now (2 * 24 * 60 * 60 * 1000) e') eqn:He; [done|].
  by intros [= <-].
Qed.

(** *** Construction *)

(** The constructor returns when the directory of the path exists or can
    be made, with the store of [new_LocalCache], and throws the error of
    [mkdirSync] otherwise; so does [getInstance] whenever it has to build a
    store. *)
Lemma LocalCache_constructor_cases d now path fs :
  (existsSync d (dirname d path) = true ∨ mkdirSync d (dirname d path) = None →
   LocalCache_constructor getTime d now path fs = Ok (new_LocalCache getTime now path fs)
   ∧ ∀ instance,
       LocalCache_getInstance getTime d instance now path fs
         = Ok (getInstance getTime instance now path fs))
  ∧ (∀ message,
       existsSync d (dirname d path) = false →
       mkdirSync d (dirname d path) = Some message →
       LocalCache_constructor getTime d now path fs = Throw (Error message)
       ∧ LocalCache_getInstance getTime d None now path fs = Throw (Error message)).
Proof.
  unfold LocalCache_getInstance, getInstance, LocalCache_constructor, ensureCacheDirectory.
  split.
  - intros Hdir.
    assert ((if existsSync d (dirname d path) then Ok tt
             else match mkdirSync d (dirname d path) with
                  | Some message => Throw (Error message)
                  | None => Ok tt
                  end) = Ok tt) as ->.
    { destruct (existsSync d (dirname d path)); [done|].
      by destruct Hdir as [?| ->]. }
    split; [done|]. intros [c|]; [|done]. by destruct (decide (cachePath c = path)).
  - intros message -> ->. done.
Qed.

(** *** [set] *)

Lemma set_fst now k entry c fs :
  (set toISOString now k entry c fs).1
    = with_cache c (<[k := written toISOString (now, k, entry)]> (cache c)).
Proof. reflexivity. Qed.

Lemma set_snd now k entry c fs :
  (set toISOString now k entry c fs).2
    = saveCache (set toISOString now k entry c fs).1 fs.
Proof. reflexivity. Qed.

Lemma setAll_snoc ws w s :
  setAll toISOString (ws ++ [w]) s
    = set toISOString w.1.1 w.1.2 w.2
        (setAll toISOString ws s).1 (setAll toISOString ws s).2.
Proof. unfold setAll. by rewrite foldl_snoc. Qed.

Lemma setAll_keeps ws c fs :
  writable fs = true →
  cachePath (setAll toISOString ws (c, fs)).1 = cachePath c
  ∧ writable (setAll toISOString ws (c, fs)).2 = true.
Proof.
  intros Hw. induction ws as [|w ws IH] using rev_ind; [done|].
  destruct IH as [IHp IHw]. rewrite setAll_snoc, set_snd, set_fst.
  split; [done|]. by apply saveCache_writable.
Qed.

Lemma setAll_mirror ws c fs :
  writable fs = true → ws ≠ [] →
  files (setAll toISOString ws (c, fs)).2 !! cachePath c
    = Some (Document (cacheObject (cache (setAll toISOString ws (c, fs)).1))).
Proof.
  intros Hw Hne. destruct ws as [|w ws _] using rev_ind; [done|].
  destruct (setAll_keeps ws c fs Hw) as [Hp Hw'].
  rewrite setAll_snoc, set_snd.
  destruct (saveCache_writable
              (set toISOString w.1.1 w.1.2 w.2
                 (setAll toISOString ws (c, fs)).1 (setAll toISOString ws (c, fs)).2).1
              _ Hw') as [Hf _].
  rewrite <- Hp. exact Hf.
Qed.

Lemma setAll_lookup ws c fs w :
  NoDup (writeKey <$> ws) → w ∈ ws →
  cache (setAll toISOString ws (c, fs)).1 !! writeKey w = Some (written toISOString w).
Proof.
  induction ws as [|w0 ws IH] using rev_ind; intros Hnd Hin.
  - by apply elem_of_nil in Hin.
  - rewrite fmap_app in Hnd. apply NoDup_app in Hnd as (Hnd & Hfresh & _).
    rewrite setAll_snoc, set_fst. simpl.
    apply elem_of_app in Hin as [Hin|Hin].
    + rewrite lookup_insert_ne; [by apply IH|].
      intros Heq. apply (Hfresh (writeKey w)).
      * by apply list_elem_of_fmap_2.
      * rewrite <- Heq. simpl. apply list_elem_of_singleton. done.
    + apply list_elem_of_singleton in Hin as ->.
      destruct w0 as [[t0 k0] e0]. apply lookup_insert_eq.
Qed.

(** *** Counters *)

Lemma call_counters s op :
  (hits (call toISOString s op).1 + misses (call toISOString s op).1
   = hits s.1 + misses s.1 + (if isGet op then 1 else 0))%N.
Proof.
  destruct s as [c fs], op as [k|t k e|k|k|k| | | |]; simpl; try lia.
  - unfold get. destruct (cache c !! k); simpl; lia.
  - unfold updateSuccess. destruct (cache c !! k); simpl; lia.
  - unfold updateFailure. destruct (cache c !! k); simpl; lia.
  - unfold delete_. destruct (cache c !! k); simpl; lia.
Qed.

Lemma calls_counters ops s :
  (hits (calls toISOString ops s).1 + misses (calls toISOString ops s).1
   = hits s.1 + misses s.1 + N.of_nat (length (filter (λ op, isGet op = true) ops)))%N.
Proof.
  revert s. induction ops as [|op ops IH]; intros s.
  - simpl. lia.
  - unfold calls in *. simpl foldl. rewrite IH, call_counters, filter_cons.
    destruct (isGet op) eqn:Hop.
    + rewrite decide_True by done. simpl length. lia.
    + rewrite decide_False by done. lia.
Qed.

(** *** The claims about the store *)

(** C8. For every key and prior store state, [set] leaves the store with
    an entry for the key that carries the passed locators and strategy, the
    current time as timestamp and both counts at 0, whatever was stored
    under the key before; the entries of the other keys are as they were;
    and, the write succeeding, the file at the store's path holds the whole
    mapping when [set] returns: a document that has, under each key of the
    store and under no other, the object of the six fields of the key's
    entry. *)
Theorem set_creates_and_persists now k entry c fs :
  writable fs = true →
  cache (set toISOString now k entry c fs).1 !! k
    = Some {| originalLocator := ne_originalLocator entry;
              generatedLocator := ne_generatedLocator entry;
              strategy := ne_strategy entry;
              timestamp := toISOString now;
              successCount := 0;
              failureCount := 0 |}
  ∧ (∀ k', k' ≠ k → cache (set toISOString now k entry c fs).1 !! k' = cache c !! k')
  ∧ files (set toISOString now k entry c fs).2 !! cachePath c
      = Some (Document (JObj (
          (λ e, JObj (list_to_map
                  [ ("originalLocator", JStr (originalLocator e));
                    ("generatedLocator", JStr (generatedLocator e));
                    ("strategy", JStr (strategy e));
                    ("timestamp", JStr (timestamp e));
                    ("successCount", JNum (successCount e));
                    ("failureCount", JNum (failureCount e)) ]))
          <$> cache (set toISOString now k entry c fs).1))).
Proof.
  intros Hw. rewrite set_snd, set_fst. simpl. split_and!.
  - apply lookup_insert_eq.
  - intros k' Hne. by apply lookup_insert_ne.
  - by apply (saveCache_writable (with_cache c _) fs).
Qed.

(** C6. Writing entries under N distinct keys with [set] and opening a
    store on the file again gives back each of them, with its locators and
    strategy, counts 0 and the timestamp it was written with, unless it is
    older than the load's age limit by then; the reloaded map is the
    written one less its expired entries. And a document's values that fail
    [isValidCacheEntry] are left out by the load while the valid ones are
    loaded. *)
Theorem set_reload_roundtrip (ws : list Write) c fs now' fs0 path0 (o : gmap string json) :
  writable fs = true →
  ws ≠ [] →
  NoDup (writeKey <$> ws) →
  files fs0 !! path0 = Some (Document (JObj o)) →
  (∀ w, w ∈ ws →
     cache (new_LocalCache getTime now' (cachePath c) (setAll toISOString ws (c, fs)).2)
       !! writeKey w
     = if expired getTime now' loadMaxAge (written toISOString w)
       then None else Some (written toISOString w))
  ∧ cache (new_LocalCache getTime now' (cachePath c) (setAll toISOString ws (c, fs)).2)
      = cleanupExpiredEntries getTime now' 2 (cache (setAll toISOString ws (c, fs)).1)
  ∧ (∀ k, cache (new_LocalCache getTime now' path0 fs0) !! k
          = match o !! k with
            | Some v =>
                if isValidCacheEntry v
                   && negb (expired getTime now' loadMaxAge (asCacheEntry v))
                then Some (asCacheEntry v)
                else None
            | None => None
            end).
Proof.
  intros Hw Hne Hnd Hf0.
  assert (Hload :
    cache (new_LocalCache getTime now' (cachePath c) (setAll toISOString ws (c, fs)).2)
      = cleanupExpiredEntries getTime now' 2 (cache (setAll toISOString ws (c, fs)).1)).
  { simpl. apply loadCache_cacheObject. by apply setAll_mirror. }
  split_and!.
  - intros w Hin. rewrite Hload, cleanupExpiredEntries_lookup.
    by rewrite (setAll_lookup ws c fs w Hnd Hin).
  - exact Hload.
  - intros k. simpl. by apply loadCache_object_lookup.
Qed.

(** C10. A call of [get] returns the entry of the key, leaves the entries
    alone and adds 1 to [hits] when the key is present and to [misses] when
    it is absent, the other counter staying; so after any sequence of calls
    on a newly constructed store, [totalHits + totalMisses] is the number
    of calls of [get] in the sequence. *)
Theorem get_counts_every_request :
  (∀ k c,
     (get k c).1 = cache c !! k
     ∧ cache (get k c).2 = cache c
     ∧ ((is_Some (cache c !! k)
         ∧ hits (get k c).2 = (hits c + 1)%N ∧ misses (get k c).2 = misses c)
        ∨ (cache c !! k = None
           ∧ hits (get k c).2 = hits c ∧ misses (get k c).2 = (misses c + 1)%N)))
  ∧ (∀ now path fs ops,
       let c := (calls toISOString ops (new_LocalCache getTime now path fs, fs)).1 in
       (hits c + misses c)%N = N.of_nat (length (filter (λ op, isGet op = true) ops))
       ∧ (totalHits (getStatistics c) + totalMisses (getStatistics c))%N
         = N.of_nat (length (filter (λ op, isGet op = true) ops))).
Proof.
  split.
  - intros k c. unfold get. destruct (cache c !! k) as [e|] eqn:Hk; simpl.
    + split_and!; [done..|]. left. eauto.
    + split_and!; [done..|]. by right.
  - intros now path fs ops c.
    assert (hits c + misses c = N.of_nat (length (filter (λ op, isGet op = true) ops)))%N
      as Hc.
    { subst c. rewrite calls_counters. simpl. lia. }
    split; [exact Hc|]. exact Hc.
Qed.

End StoreFacts.

(** ** Resolution *)

(** *** Messages *)

Lemma prefix_app (x y : string) : String.prefix x (x +:+ y) = true.
Proof.
  induction x as [|a x IH]; simpl; [by destruct y|].
  destruct (Ascii.ascii_dec a a); [exact IH|done].
Qed.

Lemma includes_unfold (x y : string) :
  includes x y =
    String.prefix x y
    || match y with EmptyString => false | String _ rest => includes x rest end.
Proof. by destruct y. Qed.

Lemma includes_here (x y : string) : includes x (x +:+ y) = true.
Proof. by rewrite includes_unfold, prefix_app. Qed.

Lemma includes_skip (x p y : string) : includes x y = true → includes x (p +:+ y) = true.
Proof.
  intros H. induction p as [|a p IH]; [done|].
  rewrite includes_unfold. simpl. rewrite IH. apply orb_true_r.
Qed.

Lemma suggestionMessage_includes (originalLocator smartLocator : string) :
  includes originalLocator (suggestionMessage originalLocator smartLocator) = true
  ∧ includes smartLocator (suggestionMessage originalLocator smartLocator) = true.
Proof.
  unfold suggestionMessage. split.
  - do 4 apply includes_skip. apply includes_here.
  - do 7 apply includes_skip. apply includes_here.
Qed.

(** *** The paths of a resolution *)

Section ResolverFacts.

Variable toISOString : Z → string.
Variable env : Env.

Ltac js_unfold :=
  unfold getLocatorWithWait, resolveSmartLocator, generateSmartLocator, callOpenAI,
    updateCacheSuccess, updateCacheFailure, validateLocator, try_catch, onCache,
    cacheGet, logCall, getConfigManager, getGenerator, throw,
    mbind, M_bind, bind, mret, M_ret, ret.

Ltac world_eq :=
  unfold evolve, with_log, with_store, store; simpl;
  rewrite <- ?app_assoc; simpl; reflexivity.

Lemma store_evolve w c fs calls : store (evolve w c fs calls) = c.
Proof. reflexivity. Qed.

(** An original locator that attaches is the outcome, and nothing else
    happens. *)
Lemma getLocatorWithWait_original page orig options w :
  waitForFirst page orig (timeoutOf options) = true →
  getLocatorWithWait toISOString env page orig options w = (Ok orig, w).
Proof. intros Horig. js_unfold. by rewrite Horig. Qed.

(** Whatever a resolution throws is one of the four structured failures. *)
Lemma getLocatorWithWait_failures page orig options w e :
  (getLocatorWithWait toISOString env page orig options w).1 = Throw e →
  structuredFailure orig e.
Proof.
  unfold structuredFailure. js_unfold. unfold get.
  repeat (case_match; simpl in *; simplify_eq); intros; simpl in *; simplify_eq; eauto 10.
Qed.

(** With healing disabled the cache is not looked at. *)
Lemma getLocatorWithWait_disabled page orig options w :
  waitForFirst page orig (timeoutOf options) = false →
  isSmartLocatorEnabled (config w) = false →
  getLocatorWithWait toISOString env page orig options w
    = (Throw (SelfHealingLocatorError (disabledMessage orig) orig None), w).
Proof.
  intros Horig Hen. js_unfold. rewrite Horig. simpl. rewrite Hen. reflexivity.
Qed.

(** A cached candidate is validated without a call of the provider. *)
Lemma resolveSmartLocator_hit page orig options w e :
  isSmartLocatorEnabled (config w) = true →
  cache (store w) !! orig = Some e →
  nonempty (generatedLocator e) = true →
  resolveSmartLocator toISOString env page orig options w =
    if waitFor page (generatedLocator e) (timeoutOf options)
    then
      (Ok (generatedLocator e),
       evolve w
         (updateSuccess orig (countHit (store w)) (disk w)).1
         (updateSuccess orig (countHit (store w)) (disk w)).2
         [LogCacheHit orig (generatedLocator e);
          LogSelfHealingSuccess orig (generatedLocator e)])
    else
      (Throw (SelfHealingLocatorError
                (validationFailedMessage orig) orig (Some (generatedLocator e))),
       evolve w
         (updateFailure orig (countHit (store w)) (disk w)).1
         (updateFailure orig (countHit (store w)) (disk w)).2
         [LogCacheHit orig (generatedLocator e);
          LogSelfHealingFailure orig (validationFailedMessage orig)]).
Proof.
  intros Hen Hhit Hne. js_unfold. rewrite Hen. simpl.
  unfold get. rewrite Hhit. simpl. rewrite Hne.
  destruct (waitFor page (generatedLocator e) (timeoutOf options)); simpl;
    f_equal; world_eq.
Qed.

(** A usable reply of the provider is stored before it is validated. *)
Lemma resolveSmartLocator_fresh page orig options w r :
  isSmartLocatorEnabled (config w) = true →
  cache (store w) !! orig = None →
  openai (generator w) = true →
  completion env (generationRequest page orig options) = Some r →
  nonempty (locator r) = true →
  nonempty (resp_strategy r) = true →
  let stored :=
    set toISOString (now env) orig (responseEntry orig r) (countMiss (store w)) (disk w) in
  resolveSmartLocator toISOString env page orig options w =
    if waitFor page (locator r) (timeoutOf options)
    then
      (Ok (locator r),
       evolve w
         (updateSuccess orig stored.1 stored.2).1
         (updateSuccess orig stored.1 stored.2).2
         [LogCacheMiss orig;
          LogApiCall (openApiModel (gen_config (generator w)));
          LogSmartLocatorGeneration orig (locator r) (resp_strategy r);
          LogSelfHealingSuccess orig (locator r)])
    else
      (Throw (SelfHealingLocatorError
                (validationFailedMessage orig) orig (Some (locator r))),
       evolve w
         (updateFailure orig stored.1 stored.2).1
         (updateFailure orig stored.1 stored.2).2
         [LogCacheMiss orig;
          LogApiCall (openApiModel (gen_config (generator w)));
          LogSmartLocatorGeneration orig (locator r) (resp_strategy r);
          LogSelfHealingFailure orig (validationFailedMessage orig)]).
Proof.
  intros Hen Hmiss Hai Hr Hl Hs stored. subst stored. js_unfold. rewrite Hen. simpl.
  unfold get. rewrite Hmiss. simpl. rewrite Hai. simpl. rewrite Hr. simpl.
  rewrite Hl, Hs. simpl. rewrite Hl.
  destruct (waitFor page (locator r) (timeoutOf options)); simpl; f_equal; world_eq.
Qed.

(** Without a client, or without a usable reply, nothing is stored. *)
Lemma resolveSmartLocator_no_candidate page orig options w :
  isSmartLocatorEnabled (config w) = true →
  cache (store w) !! orig = None →
  openai (generator w) = false
  ∨ completion env (generationRequest page orig options) = None
  ∨ (∃ r, completion env (generationRequest page orig options) = Some r
          ∧ (nonempty (locator r) = false ∨ nonempty (resp_strategy r) = false)) →
  ∃ calls,
    resolveSmartLocator toISOString env page orig options w =
      (Throw (SelfHealingLocatorError (generationFailedMessage orig) orig None),
       evolve w (countMiss (store w)) (disk w) (LogCacheMiss orig :: calls)).
Proof.
  intros Hen Hmiss Hwhy. js_unfold. rewrite Hen. simpl.
  unfold get. rewrite Hmiss. simpl.
  destruct (openai (generator w)) eqn:Hai; simpl.
  - destruct Hwhy as [Hno|[Hnone|(r & Hr & Hbad)]]; [done| |].
    + rewrite Hnone. simpl. eexists. f_equal. world_eq.
    + rewrite Hr. simpl.
      assert (negb (nonempty (locator r)) || negb (nonempty (resp_strategy r)) = true)
        as -> by (destruct Hbad as [-> | ->]; simpl; [done|apply orb_true_r]).
      simpl. eexists. f_equal. world_eq.
  - eexists. f_equal. world_eq.
Qed.

(** After a failed original locator the policy decides what becomes of a
    resolved one, cached or fresh. *)
Lemma getLocatorWithWait_fallback page orig options w :
  waitForFirst page orig (timeoutOf options) = false →
  getLocatorWithWait toISOString env page orig options w =
    match resolveSmartLocator toISOString env page orig options w with
    | (Ok smart, w') =>
        if shouldRunWithSmartLocator (config w')
        then (Ok smart, w')
        else (Throw (Error (suggestionMessage orig smart)),
              with_log [LogWarn (suggestionMessage orig smart)] w')
    | (Throw e, w') => (Throw e, w')
    end.
Proof.
  intros Horig. unfold getLocatorWithWait. rewrite Horig.
  unfold mbind, M_bind, bind.
  destruct (resolveSmartLocator toISOString env page orig options w) as [[smart|e] w'];
    [|done].
  unfold getConfigManager. simpl.
  by destruct (shouldRunWithSmartLocator (config w')).
Qed.

Lemma updateFailure_hit k c fs e :
  cache c !! k = Some e →
  cache (updateFailure k c fs).1 = <[k := bumpFailure e]> (cache c)
  ∧ hits (updateFailure k c fs).1 = hits c
  ∧ misses (updateFailure k c fs).1 = misses c.
Proof. intros H. unfold updateFailure. by rewrite H. Qed.

Lemma updateSuccess_hit k c fs e :
  cache c !! k = Some e →
  cache (updateSuccess k c fs).1 = <[k := bumpSuccess e]> (cache c)
  ∧ hits (updateSuccess k c fs).1 = hits c
  ∧ misses (updateSuccess k c fs).1 = misses c.
Proof. intros H. unfold updateSuccess. by rewrite H. Qed.

(** On a miss the reply is stored by [set] and then marked failed when it
    does not validate. *)
Lemma fresh_candidate_stored_before_validation page orig options w r :
  waitForFirst page orig (timeoutOf options) = false →
  isSmartLocatorEnabled (config w) = true →
  cache (store w) !! orig = None →
  openai (generator w) = true →
  completion env (generationRequest page orig options) = Some r →
  nonempty (locator r) = true →
  nonempty (resp_strategy r) = true →
  waitFor page (locator r) (timeoutOf options) = false →
  (getLocatorWithWait toISOString env page orig options w).1
    = Throw (SelfHealingLocatorError
               (validationFailedMessage orig) orig (Some (locator r)))
  ∧ cache (store (getLocatorWithWait toISOString env page orig options w).2)
      = <[orig := bumpFailure (written toISOString (now env, orig, responseEntry orig r))]>
          (cache (store w)).
Proof.
  intros Horig Hen Hmiss Hai Hr Hl Hs Hval.
  pose proof (resolveSmartLocator_fresh _ _ _ _ _ Hen Hmiss Hai Hr Hl Hs) as Hres.
  rewrite Hval in Hres. cbv zeta in Hres.
  rewrite (getLocatorWithWait_fallback _ _ _ _ Horig), Hres. cbn [fst snd].
  split; [done|]. rewrite store_evolve.
  destruct (updateFailure_hit orig
              (set toISOString (now env) orig (responseEntry orig r)
                 (countMiss (store w)) (disk w)).1
              (set toISOString (now env) orig (responseEntry orig r)
                 (countMiss (store w)) (disk w)).2
              (written toISOString (now env, orig, responseEntry orig r)))
    as (Hc & _ & _).
  { rewrite set_fst. apply lookup_insert_eq. }
  rewrite Hc, set_fst. apply insert_insert_eq.
Qed.

(** *** The claims about resolution *)

(** C1, as amended. When the original locator fails, healing is enabled
    and the store holds for the key an entry whose non-empty generated
    locator does not validate, the resolution ends in the validation
    error, which carries the original locator and the stale candidate; the
    entry stays, with [failureCount++] applied to it, and no other entry
    changes: its [failureCount] is larger by exactly 1 when it was a count
    from -2^53 up to 2^53 - 1, beyond which a number has no successor; and
    the provider is not called: the log gains the cache hit and the
    failure, and no API call. *)
Theorem stale_candidate_fails_without_regeneration page orig options w e :
  waitForFirst page orig (timeoutOf options) = false →
  isSmartLocatorEnabled (config w) = true →
  cache (store w) !! orig = Some e →
  nonempty (generatedLocator e) = true →
  waitFor page (generatedLocator e) (timeoutOf options) = false →
  (getLocatorWithWait toISOString env page orig options w).1
    = Throw (SelfHealingLocatorError
               (validationFailedMessage orig) orig (Some (generatedLocator e)))
  ∧ cache (store (getLocatorWithWait toISOString env page orig options w).2)
      = <[orig := bumpFailure e]> (cache (store w))
  ∧ (- 2 ^ 53 ≤ failureCount e < 2 ^ 53 →
     failureCount
       <$> cache (store (getLocatorWithWait toISOString env page orig options w).2) !! orig
       = Some (failureCount e + 1))
  ∧ log (getLocatorWithWait toISOString env page orig options w).2
      = log w ++ [LogCacheHit orig (generatedLocator e);
                  LogSelfHealingFailure orig (validationFailedMessage orig)]
  ∧ (∀ model,
       LogApiCall model ∈ log (getLocatorWithWait toISOString env page orig options w).2 →
       LogApiCall model ∈ log w).
Proof.
  intros Horig Hen Hhit Hne Hval.
  rewrite (getLocatorWithWait_fallback _ _ _ _ Horig).
  rewrite (resolveSmartLocator_hit _ _ _ _ _ Hen Hhit Hne), Hval. simpl.
  destruct (updateFailure_hit orig (countHit (store w)) (disk w) e Hhit) as (Hc & _ & _).
  split_and!; [done|exact Hc| |done|].
  - intros Hb. rewrite store_evolve, Hc, lookup_insert_eq. simpl.
    by rewrite increment_exact.
  - intros model [Hin|Hin]%elem_of_app; [done|].
    apply list_elem_of_In in Hin. destruct Hin as [Hin|[Hin|[]]]; discriminate.
Qed.

(** C2, as amended. When the original locator fails, the healing gate
    comes before the cache. With healing disabled the resolution ends in
    the healing-disabled error, which carries the original locator only,
    and nothing changes: the cache is not consulted, whatever it holds. With
    healing enabled the cache is consulted: a hit with a non-empty
    candidate is counted and leads to the validation of that candidate
    without a call of the provider. A candidate that validates is what
    [resolveSmartLocator] returns, with [successCount++] applied to its
    entry, so a [successCount] larger by 1 when it was a count from -2^53 up
    to 2^53 - 1; one that does not validate ends the resolution in the
    validation error. A miss leads on to generation, which calls the
    provider when the client exists. *)
Theorem healing_gate_precedes_cache page orig options w :
  waitForFirst page orig (timeoutOf options) = false →
  (isSmartLocatorEnabled (config w) = false →
     getLocatorWithWait toISOString env page orig options w
       = (Throw (SelfHealingLocatorError (disabledMessage orig) orig None), w))
  ∧ (isSmartLocatorEnabled (config w) = true →
     (∀ e, cache (store w) !! orig = Some e →
           nonempty (generatedLocator e) = true →
           hits (store (resolveSmartLocator toISOString env page orig options w).2)
             = (hits (store w) + 1)%N
           ∧ (∀ model,
                LogApiCall model
                  ∈ log (resolveSmartLocator toISOString env page orig options w).2 →
                LogApiCall model ∈ log w)
           ∧ (waitFor page (generatedLocator e) (timeoutOf options) = true →
              (resolveSmartLocator toISOString env page orig options w).1
                = Ok (generatedLocator e)
              ∧ cache (store (resolveSmartLocator toISOString env page orig options w).2)
                  = <[orig := bumpSuccess e]> (cache (store w))
              ∧ (- 2 ^ 53 ≤ successCount e < 2 ^ 53 →
                 successCount
                   <$> cache (store (resolveSmartLocator toISOString env page orig
                                       options w).2) !! orig
                   = Some (successCount e + 1))
              ∧ log (resolveSmartLocator toISOString env page orig options w).2
                  = log w ++ [LogCacheHit orig (generatedLocator e);
                              LogSelfHealingSuccess orig (generatedLocator e)])
           ∧ (waitFor page (generatedLocator e) (timeoutOf options) = false →
              (resolveSmartLocator toISOString env page orig options w).1
                = Throw (SelfHealingLocatorError
                           (validationFailedMessage orig) orig (Some (generatedLocator e)))
              ∧ log (resolveSmartLocator toISOString env page orig options w).2
                  = log w ++ [LogCacheHit orig (generatedLocator e);
                              LogSelfHealingFailure orig (validationFailedMessage orig)]))
     ∧ (cache (store w) !! orig = None →
        openai (generator w) = true →
        ∃ calls,
          log (resolveSmartLocator toISOString env page orig options w).2
            = log w ++ LogCacheMiss orig
                       :: LogApiCall (openApiModel (gen_config (generator w)))
                       :: calls)).
Proof.
  intros Horig. split; [by apply getLocatorWithWait_disabled|].
  intros Hen. split.
  - intros e Hhit Hne.
    rewrite (resolveSmartLocator_hit _ _ _ _ _ Hen Hhit Hne).
    destruct (updateSuccess_hit orig (countHit (store w)) (disk w) e Hhit)
      as (Hc & Hh & _).
    destruct (updateFailure_hit orig (countHit (store w)) (disk w) e Hhit)
      as (_ & Hh' & _).
    split_and!.
    + destruct (waitFor page (generatedLocator e) (timeoutOf options)); simpl;
        [exact Hh|exact Hh'].
    + intros model Hin.
      destruct (waitFor page (generatedLocator e) (timeoutOf options)); simpl in Hin;
        apply elem_of_app in Hin as [Hin|Hin]; try done;
        apply list_elem_of_In in Hin; destruct Hin as [Hin|[Hin|[]]]; discriminate.
    + intros Hval. rewrite Hval. cbn [fst snd]. rewrite store_evolve.
      split_and!; [done|exact Hc| |done].
      intros Hb. rewrite Hc, lookup_insert_eq. simpl. by rewrite increment_exact.
    + intros Hval. rewrite Hval. simpl. by split.
  - intros Hmiss Hai.
    unfold resolveSmartLocator, generateSmartLocator, callOpenAI, try_catch, cacheGet,
      logCall, getConfigManager, getGenerator, throw, mbind, M_bind, bind, mret, M_ret, ret.
    rewrite Hen. simpl. unfold get. rewrite Hmiss. simpl. rewrite Hai. simpl.
    destruct (completion env (generationRequest page orig options)) as [r|]; simpl.
    + destruct (negb (nonempty (locator r)) || negb (nonempty (resp_strategy r))); simpl.
      * eexists. rewrite <- !app_assoc. reflexivity.
      * destruct (nonempty (locator r)); simpl;
          [destruct (validateLocator page (locator r) (timeoutOf options)); simpl|];
          eexists; rewrite <- !app_assoc; reflexivity.
    + eexists. rewrite <- !app_assoc. reflexivity.
Qed.

(** C4. When the original locator fails, healing is enabled, the store has
    no entry for the key and the provider's reply is usable and validates:
    in discovery mode the resolution throws an error whose message includes
    the original locator and the suggested one; in healing mode it returns
    the suggested locator. *)
Theorem fresh_regeneration_policy page orig options w r :
  waitForFirst page orig (timeoutOf options) = false →
  isSmartLocatorEnabled (config w) = true →
  cache (store w) !! orig = None →
  openai (generator w) = true →
  completion env (generationRequest page orig options) = Some r →
  nonempty (locator r) = true →
  nonempty (resp_strategy r) = true →
  waitFor page (locator r) (timeoutOf options) = true →
  (shouldRunWithSmartLocator (config w) = false →
     (∃ message,
        (getLocatorWithWait toISOString env page orig options w).1 = Throw (Error message)
        ∧ includes orig message = true
        ∧ includes (locator r) message = true))
  ∧ (shouldRunWithSmartLocator (config w) = true →
     (getLocatorWithWait toISOString env page orig options w).1 = Ok (locator r)).
Proof.
  intros Horig Hen Hmiss Hai Hr Hl Hs Hval.
  rewrite (getLocatorWithWait_fallback _ _ _ _ Horig).
  rewrite (resolveSmartLocator_fresh _ _ _ _ _ Hen Hmiss Hai Hr Hl Hs), Hval. simpl.
  split; intros Hmode; rewrite Hmode; simpl; [|done].
  exists (suggestionMessage orig (locator r)).
  split; [done|]. apply suggestionMessage_includes.
Qed.

(** C9. [exists] never throws: it returns [true] when the resolution
    returns a locator and [false] when the resolution throws, and leaves
    the state the resolution leaves; and what a resolution throws is one of
    the structured failures: healing disabled, generation failed,
    validation failed, review required. *)
Theorem exists_reports_resolution page orig options w :
  exists_ toISOString env page orig options w
    = (Ok (match (getLocatorWithWait toISOString env page orig options w).1 with
           | Ok _ => true
           | Throw _ => false
           end),
       (getLocatorWithWait toISOString env page orig options w).2)
  ∧ (∀ e, (getLocatorWithWait toISOString env page orig options w).1 = Throw e →
          structuredFailure orig e
          ∧ (exists_ toISOString env page orig options w).1 = Ok false)
  ∧ (∀ l, (getLocatorWithWait toISOString env page orig options w).1 = Ok l →
          (exists_ toISOString env page orig options w).1 = Ok true).
Proof.
  assert (Hexists :
    exists_ toISOString env page orig options w
      = (Ok (match (getLocatorWithWait toISOString env page orig options w).1 with
             | Ok _ => true
             | Throw _ => false
             end),
         (getLocatorWithWait toISOString env page orig options w).2)).
  { unfold exists_, try_catch, mbind, M_bind, bind, mret, M_ret, ret.
    change (getLocatorWithWait toISOString env page orig
              {| opt_timeout := Some (timeoutOf options);
                 elementDescription := elementDescription options |} w)
      with (getLocatorWithWait toISOString env page orig options w).
    by destruct (getLocatorWithWait toISOString env page orig options w) as [[l|e] w']. }
  split_and!.
  - exact Hexists.
  - intros e He. split; [by eapply getLocatorWithWait_failures|].
    by rewrite Hexists, He.
  - intros l Hl. by rewrite Hexists, Hl.
Qed.

End ResolverFacts.

(** ** Instances on the sample data *)

Lemma set_creates_and_persists_witness :
  writable Sample.emptyDisk = true
  ∧ cache (set Sample.toISOString Sample.jan3 "#old-id" Sample.submit
             Sample.usedStore Sample.emptyDisk).1 !! "#old-id"
      = Some (Sample.submitEntry "2025-01-03T00:00:00.000Z" 0 0)
  ∧ files (set Sample.toISOString Sample.jan3 "#old-id" Sample.submit
             Sample.usedStore Sample.emptyDisk).2 !! Sample.path
      = Some (Document (JObj
                {[ "#old-id" :=
                     JObj (list_to_map
                       [ ("originalLocator", JStr "#old-id");
                         ("generatedLocator", JStr "[data-testid=submit]");
                         ("strategy", JStr "DATA_TESTID");
                         ("timestamp", JStr "2025-01-03T00:00:00.000Z");
                         ("successCount", JNum 0);
                         ("failureCount", JNum 0) ]) ]})).
Proof.
  split; [reflexivity|].
  destruct (set_creates_and_persists Sample.toISOString Sample.jan3 "#old-id"
              Sample.submit Sample.usedStore Sample.emptyDisk eq_refl) as (H1 & _ & H3).
  split; [exact H1|]. etrans; [exact H3|reflexivity].
Defined.

Lemma set_reload_roundtrip_witness :
  (writable Sample.emptyDisk = true
   ∧ Sample.twoWrites ≠ []
   ∧ NoDup (writeKey <$> Sample.twoWrites)
   ∧ files Sample.mixedDisk !! Sample.path = Some (Document (JObj Sample.mixedObject)))
  ∧ cache (new_LocalCache Sample.getTime Sample.jan4 Sample.path
             (setAll Sample.toISOString Sample.twoWrites
                (Sample.emptyStore, Sample.emptyDisk)).2) !! "#login"
      = Some {| originalLocator := "#login"; generatedLocator := "button.login";
                strategy := "CSS"; timestamp := "2025-01-03T00:00:00.000Z";
                successCount := 0; failureCount := 0 |}
  ∧ cache (new_LocalCache Sample.getTime Sample.jan4 Sample.path
             (setAll Sample.toISOString Sample.twoWrites
                (Sample.emptyStore, Sample.emptyDisk)).2) !! "#old-id"
      = None
  ∧ cache (new_LocalCache Sample.getTime Sample.jan4 Sample.path Sample.mixedDisk)
      !! "#old-id"
      = Some (Sample.submitEntry "2025-01-03T00:00:00.000Z" 4 1)
  ∧ cache (new_LocalCache Sample.getTime Sample.jan4 Sample.path Sample.mixedDisk)
      !! "#broken"
      = None.
Proof.
  assert (Hnd : NoDup (writeKey <$> Sample.twoWrites)).
  { apply (bool_decide_unpack _). vm_compute. exact I. }
  assert (Hne : Sample.twoWrites ≠ []) by discriminate.
  split; [split_and!; [reflexivity|exact Hne|exact Hnd|reflexivity]|].
  destruct (set_reload_roundtrip Sample.toISOString Sample.getTime Sample.twoWrites
              Sample.emptyStore Sample.emptyDisk Sample.jan4
              Sample.mixedDisk Sample.path Sample.mixedObject
              eq_refl Hne Hnd eq_refl) as (H1 & _ & H3).
  split_and!.
  - etrans; [apply (H1 (Sample.jan3, "#login", Sample.login))|reflexivity].
    apply list_elem_of_In. right. left. reflexivity.
  - etrans; [apply (H1 (Sample.jan1, "#old-id", Sample.submit))|reflexivity].
    apply list_elem_of_In. left. reflexivity.
  - etrans; [apply H3|reflexivity].
  - etrans; [apply H3|reflexivity].
Defined.

(** *** Resolution on the sample data *)

Lemma stale_candidate_fails_without_regeneration_witness :
  (waitForFirst Sample.page "#old-id" (timeoutOf Sample.options) = false
   ∧ isSmartLocatorEnabled (config (Sample.world Sample.healing Sample.cached)) = true
   ∧ cache (store (Sample.world Sample.healing Sample.cached)) !! "#old-id"
       = Some (Sample.submitEntry "2025-01-03T00:00:00.000Z" 0 0)
   ∧ waitFor Sample.page "[data-testid=submit]" (timeoutOf Sample.options) = false)
  ∧ (getLocatorWithWait Sample.toISOString Sample.env Sample.page "#old-id"
       Sample.options (Sample.world Sample.healing Sample.cached)).1
      = Throw (SelfHealingLocatorError
                 "Smart locator validation failed for: #old-id" "#old-id"
                 (Some "[data-testid=submit]"))
  ∧ cache (store (getLocatorWithWait Sample.toISOString Sample.env Sample.page "#old-id"
                    Sample.options (Sample.world Sample.healing Sample.cached)).2)
      !! "#old-id"
      = Some (Sample.submitEntry "2025-01-03T00:00:00.000Z" 0 1).
Proof.
  split; [by split_and!|].
  destruct (stale_candidate_fails_without_regeneration
              Sample.toISOString Sample.env Sample.page "#old-id" Sample.options
              (Sample.world Sample.healing Sample.cached)
              (Sample.submitEntry "2025-01-03T00:00:00.000Z" 0 0)
              eq_refl eq_refl eq_refl eq_refl eq_refl) as (H1 & H2 & _).
  split; [exact H1|]. rewrite H2. reflexivity.
Defined.

(** C1, as stated, fails: the stale candidate of [#old-id] does not
    validate, the provider's reply would, healing is enabled and the client
    exists; yet the provider is not called and the resolution fails. *)
Lemma stale_candidate_no_fresh_generation :
  waitForFirst Sample.page "#old-id" (timeoutOf Sample.options) = false
  ∧ cache (store (Sample.world Sample.healing Sample.cached)) !! "#old-id"
      = Some (Sample.submitEntry "2025-01-03T00:00:00.000Z" 0 0)
  ∧ waitFor Sample.page "[data-testid=submit]" (timeoutOf Sample.options) = false
  ∧ completion Sample.env (generationRequest Sample.page "#old-id" Sample.options)
      = Some Sample.reply
  ∧ waitFor Sample.page (locator Sample.reply) (timeoutOf Sample.options) = true
  ∧ getLocatorWithWait Sample.toISOString Sample.env Sample.page "#old-id"
      Sample.options (Sample.world Sample.healing Sample.cached)
      = (Throw (SelfHealingLocatorError
                  "Smart locator validation failed for: #old-id" "#old-id"
                  (Some "[data-testid=submit]")),
         evolve (Sample.world Sample.healing Sample.cached)
           {| cache := {[ "#old-id" := Sample.submitEntry "2025-01-03T00:00:00.000Z" 0 1 ]};
              cachePath := Sample.path; hits := 1; misses := 0 |}
           {| files :=
                {[ Sample.path :=
                     Document (cacheObject
                       {[ "#old-id" :=
                            Sample.submitEntry "2025-01-03T00:00:00.000Z" 0 1 ]}) ]};
              writable := true |}
           [LogCacheHit "#old-id" "[data-testid=submit]";
            LogSelfHealingFailure "#old-id"
              "Smart locator validation failed for: #old-id"])
  ∧ ¬ (∃ model,
         LogApiCall model
           ∈ log (getLocatorWithWait Sample.toISOString Sample.env Sample.page "#old-id"
                    Sample.options (Sample.world Sample.healing Sample.cached)).2).
Proof.
  split_and!; try reflexivity.
  intros [model Hin]. apply list_elem_of_In in Hin.
  destruct Hin as [Hin|[Hin|[]]]; discriminate.
Qed.

Lemma healing_gate_precedes_cache_witness :
  (waitForFirst Sample.oldPage "#old-id" (timeoutOf Sample.options) = false
   ∧ isSmartLocatorEnabled (config (Sample.world Sample.disabled Sample.cached)) = false
   ∧ isSmartLocatorEnabled (config (Sample.world Sample.healing Sample.cached)) = true
   ∧ cache (store (Sample.world Sample.healing Sample.cached)) !! "#old-id"
       = Some (Sample.submitEntry "2025-01-03T00:00:00.000Z" 0 0)
   ∧ waitFor Sample.oldPage "[data-testid=submit]" (timeoutOf Sample.options) = true)
  ∧ getLocatorWithWait Sample.toISOString Sample.env Sample.oldPage "#old-id"
      Sample.options (Sample.world Sample.disabled Sample.cached)
      = (Throw (SelfHealingLocatorError
                  "Locator failed and smart locator is disabled: #old-id" "#old-id" None),
         Sample.world Sample.disabled Sample.cached)
  ∧ (resolveSmartLocator Sample.toISOString Sample.env Sample.oldPage "#old-id"
       Sample.options (Sample.world Sample.healing Sample.cached)).1
      = Ok "[data-testid=submit]"
  ∧ cache (store (resolveSmartLocator Sample.toISOString Sample.env Sample.oldPage
                    "#old-id" Sample.options
                    (Sample.world Sample.healing Sample.cached)).2) !! "#old-id"
      = Some (Sample.submitEntry "2025-01-03T00:00:00.000Z" 1 0).
Proof.
  split; [by split_and!|].
  destruct (healing_gate_precedes_cache
              Sample.toISOString Sample.env Sample.oldPage "#old-id" Sample.options
              (Sample.world Sample.disabled Sample.cached) eq_refl) as [Hoff _].
  destruct (healing_gate_precedes_cache
              Sample.toISOString Sample.env Sample.oldPage "#old-id" Sample.options
              (Sample.world Sample.healing Sample.cached) eq_refl) as [_ Hon].
  destruct (Hon eq_refl) as [Hhit _].
  destruct (Hhit (Sample.submitEntry "2025-01-03T00:00:00.000Z" 0 0)
              eq_refl eq_refl) as (_ & _ & Hvalid & _).
  destruct (Hvalid eq_refl) as (H1 & H2 & _).
  split_and!.
  - exact (Hoff eq_refl).
  - exact H1.
  - rewrite H2. reflexivity.
Defined.

(** C2, as stated, fails: healing is disabled and the store holds for
    [#old-id] a candidate that validates; the resolution ends in the
    healing-disabled error and the store has counted neither a hit nor a
    miss. *)
Lemma valid_cached_candidate_with_healing_disabled :
  waitForFirst Sample.oldPage "#old-id" (timeoutOf Sample.options) = false
  ∧ isSmartLocatorEnabled (config (Sample.world Sample.disabled Sample.cached)) = false
  ∧ cache (store (Sample.world Sample.disabled Sample.cached)) !! "#old-id"
      = Some (Sample.submitEntry "2025-01-03T00:00:00.000Z" 0 0)
  ∧ waitFor Sample.oldPage "[data-testid=submit]" (timeoutOf Sample.options) = true
  ∧ (getLocatorWithWait Sample.toISOString Sample.env Sample.oldPage "#old-id"
       Sample.options (Sample.world Sample.disabled Sample.cached)).1
      = Throw (SelfHealingLocatorError
                 "Locator failed and smart locator is disabled: #old-id" "#old-id" None)
  ∧ (getLocatorWithWait Sample.toISOString Sample.env Sample.oldPage "#old-id"
       Sample.options (Sample.world Sample.disabled Sample.cached)).1
      ≠ Ok "[data-testid=submit]"
  ∧ getStatistics
      (store (getLocatorWithWait Sample.toISOString Sample.env Sample.oldPage "#old-id"
                Sample.options (Sample.world Sample.disabled Sample.cached)).2)
      = getStatistics (store (Sample.world Sample.disabled Sample.cached))
  ∧ totalHits (getStatistics (store (Sample.world Sample.disabled Sample.cached))) = 0%N
  ∧ totalMisses (getStatistics (store (Sample.world Sample.disabled Sample.cached))) = 0%N.
Proof. split_and!; try reflexivity. discriminate. Qed.

Lemma fresh_regeneration_policy_witness :
  (waitForFirst Sample.page "#missing" (timeoutOf Sample.options) = false
   ∧ isSmartLocatorEnabled (config (Sample.world Sample.discovery ∅)) = true
   ∧ cache (store (Sample.world Sample.discovery ∅)) !! "#missing" = None
   ∧ openai (generator (Sample.world Sample.discovery ∅)) = true
   ∧ completion Sample.env (generationRequest Sample.page "#missing" Sample.options)
       = Some Sample.reply
   ∧ waitFor Sample.page (locator Sample.reply) (timeoutOf Sample.options) = true
   ∧ shouldRunWithSmartLocator (config (Sample.world Sample.discovery ∅)) = false
   ∧ shouldRunWithSmartLocator (config (Sample.world Sample.healing ∅)) = true)
  ∧ (∃ message,
       (getLocatorWithWait Sample.toISOString Sample.env Sample.page "#missing"
          Sample.options (Sample.world Sample.discovery ∅)).1 = Throw (Error message)
       ∧ includes "#missing" message = true
       ∧ includes "button.submit" message = true)
  ∧ (getLocatorWithWait Sample.toISOString Sample.env Sample.page "#missing"
       Sample.options (Sample.world Sample.healing ∅)).1 = Ok "button.submit".
Proof.
  split; [by split_and!|].
  destruct (fresh_regeneration_policy
              Sample.toISOString Sample.env Sample.page "#missing" Sample.options
              (Sample.world Sample.discovery ∅) Sample.reply
              ltac:(reflexivity) ltac:(reflexivity) ltac:(reflexivity) ltac:(reflexivity)
              ltac:(reflexivity) ltac:(reflexivity) ltac:(reflexivity) ltac:(reflexivity))
    as [Hdiscovery _].
  destruct (fresh_regeneration_policy
              Sample.toISOString Sample.env Sample.page "#missing" Sample.options
              (Sample.world Sample.healing ∅) Sample.reply
              ltac:(reflexivity) ltac:(reflexivity) ltac:(reflexivity) ltac:(reflexivity)
              ltac:(reflexivity) ltac:(reflexivity) ltac:(reflexivity) ltac:(reflexivity))
    as [_ Hhealing].
  split; [exact (Hdiscovery eq_refl)|exact (Hhealing eq_refl)].
Defined.

(** C3. The code at the failing input: the store has no entry for
    [#missing], the provider replies [button.submit], which does not
    attach. The resolution ends in the validation error, and the store and
    the file then hold a new entry for [#missing], with [failureCount] 1:
    the reply was stored, by the [set] that precedes the generation's log
    call, before it was validated. The next resolution of [#missing] finds
    that entry and does not call the provider. *)
Theorem unvalidated_candidate_is_cached :
  cache (store (Sample.world Sample.healing ∅)) !! "#missing" = None
  ∧ completion Sample.env (generationRequest Sample.blankPage "#missing" Sample.options)
      = Some Sample.reply
  ∧ waitFor Sample.blankPage (locator Sample.reply) (timeoutOf Sample.options) = false
  ∧ (getLocatorWithWait Sample.toISOString Sample.env Sample.blankPage "#missing"
       Sample.options (Sample.world Sample.healing ∅)).1
      = Throw (SelfHealingLocatorError
                 "Smart locator validation failed for: #missing" "#missing"
                 (Some "button.submit"))
  ∧ cache (store Sample.poisoned) !! "#missing"
      = Some {| originalLocator := "#missing"; generatedLocator := "button.submit";
                strategy := "CSS"; timestamp := "2025-01-03T00:00:00.000Z";
                successCount := 0; failureCount := 1 |}
  ∧ files (disk Sample.poisoned) !! Sample.path
      = Some (Document (cacheObject (cache (store Sample.poisoned))))
  ∧ log Sample.poisoned
      = [LogCacheMiss "#missing";
         LogApiCall "gpt-4o-mini";
         LogSmartLocatorGeneration "#missing" "button.submit" "CSS";
         LogSelfHealingFailure "#missing" "Smart locator validation failed for: #missing"]
  ∧ log (getLocatorWithWait Sample.toISOString Sample.env Sample.blankPage "#missing"
           Sample.options Sample.poisoned).2
      = log Sample.poisoned
        ++ [LogCacheHit "#missing" "button.submit";
            LogSelfHealingFailure "#missing"
              "Smart locator validation failed for: #missing"].
Proof. split_and!; reflexivity. Qed.

(** *** Expiry and the configuration *)

(** The age limit of a load does not depend on [cacheExpirationDays]. *)
Lemma new_SmartLocatorGenerator_expiry_fixed getTime env cfg instance fs days :
  gen_cache (new_SmartLocatorGenerator getTime env
               (updateConfig {| upd_useSmartLocator := None;
                                upd_runWithSmartLocator := None;
                                upd_cachePath := None;
                                upd_openApiKey := None;
                                upd_cacheExpirationDays := Some days |} cfg)
               instance fs)
    = gen_cache (new_SmartLocatorGenerator getTime env cfg instance fs).
Proof. reflexivity. Qed.

(** C7. The code at the failing input: the configuration asks for an
    expiry of one day, the file holds an entry that is 36 hours old, with
    counts 4 and 1, and the generator opens its store; the entry is older
    than the configured age and is present after the load. *)
Theorem expiry_ignores_configured_age :
  cacheExpirationDays Sample.oneDay = 1
  ∧ Sample.getTime "2025-01-02T12:00:00.000Z" = Some Sample.jan2noon
  ∧ now Sample.laterEnv - Sample.jan2noon = 36 * 60 * 60 * 1000
  ∧ expired Sample.getTime (now Sample.laterEnv)
      (cacheExpirationDays Sample.oneDay * 24 * 60 * 60 * 1000)
      (Sample.submitEntry "2025-01-02T12:00:00.000Z" 4 1) = true
  ∧ cache (gen_cache (new_SmartLocatorGenerator Sample.getTime Sample.laterEnv
                        Sample.oneDay None Sample.agedDisk)) !! "#old-id"
      = Some (Sample.submitEntry "2025-01-02T12:00:00.000Z" 4 1).
Proof. split_and!; reflexivity. Qed.

(** *** The hit rate *)

Lemma getStatistics_no_requests c :
  hits c = 0%N → misses c = 0%N →
  hitRate (getStatistics c) = 0%float
  ∧ totalHits (getStatistics c) = 0%N
  ∧ totalMisses (getStatistics c) = 0%N.
Proof. intros Hh Hm. unfold getStatistics. rewrite Hh, Hm. by split_and!. Qed.

(** Another tie, 3.125 per cent, is reported as 3.13. *)
Lemma hitRate_tie_rounded_up :
  hitRate (getStatistics
    (calls Sample.toISOString (Sample.requests 1 31)
       (new_LocalCache Sample.getTime Sample.jan3 Sample.path Sample.emptyDisk,
        Sample.emptyDisk)).1) = (313 / 100)%float.
Proof. vm_compute. reflexivity. Qed.

(** C5. The code at the failing input: after 23 calls of [get] that hit
    and 137 that miss, the exact rate is 14.375 per cent, which rounds to
    14.38 under [Math.round]'s own rule; in binary64 the product
    [(23 / 160) * 100 * 100] falls below 1437.5, and [getStatistics] reports
    14.37. *)
Theorem hitRate_tie_rounded_down :
  totalHits (getStatistics
    (calls Sample.toISOString (Sample.requests 23 137)
       (new_LocalCache Sample.getTime Sample.jan3 Sample.path Sample.emptyDisk,
        Sample.emptyDisk)).1) = 23%N
  ∧ totalMisses (getStatistics
      (calls Sample.toISOString (Sample.requests 23 137)
         (new_LocalCache Sample.getTime Sample.jan3 Sample.path Sample.emptyDisk,
          Sample.emptyDisk)).1) = 137%N
  ∧ 23 * 100 * 1000 = 14375 * (23 + 137)
  ∧ (2 * (23 * 100 * 100) + (23 + 137)) / (2 * (23 + 137)) = 1438
  ∧ PrimFloat.ltb (23 / 160 * 100 * 100) 1437.5 = true
  ∧ hitRate (getStatistics
      (calls Sample.toISOString (Sample.requests 23 137)
         (new_LocalCache Sample.getTime Sample.jan3 Sample.path Sample.emptyDisk,
          Sample.emptyDisk)).1) = (1437 / 100)%float
  ∧ PrimFloat.eqb (1437 / 100) (1438 / 100) = false.
Proof. split_and!; vm_compute; reflexivity. Qed.

Lemma exists_reports_resolution_witness :
  ((getLocatorWithWait Sample.toISOString Sample.env Sample.page "#missing"
      Sample.options (Sample.world Sample.discovery ∅)).1
     = Throw (Error (suggestionMessage "#missing" "button.submit"))
   ∧ (getLocatorWithWait Sample.toISOString Sample.env Sample.page "#missing"
        Sample.options (Sample.world Sample.healing ∅)).1
       = Ok "button.submit")
  ∧ (exists_ Sample.toISOString Sample.env Sample.page "#missing"
       Sample.options (Sample.world Sample.discovery ∅)).1 = Ok false
  ∧ (exists_ Sample.toISOString Sample.env Sample.page "#missing"
       Sample.options (Sample.world Sample.healing ∅)).1 = Ok true.
Proof.
  split; [split; reflexivity|].
  destruct (exists_reports_resolution Sample.toISOString Sample.env Sample.page
              "#missing" Sample.options (Sample.world Sample.discovery ∅))
    as (_ & Hthrow & _).
  destruct (exists_reports_resolution Sample.toISOString Sample.env Sample.page
              "#missing" Sample.options (Sample.world Sample.healing ∅))
    as (_ & _ & Hok).
  split.
  - exact (proj2 (Hthrow (Error (suggestionMessage "#missing" "button.submit"))
                    ltac:(reflexivity))).
  - exact (Hok "button.submit" ltac:(reflexivity)).
Defined.

(** * Further properties *)

(** ** The store under sequences of calls *)

Section MoreStoreFacts.

Variable toISOString : Z → string.
Variable getTime : string → option Z.

Lemma counted_counted e a b a' b' :
  counted (counted e a b) a' b' = counted e (a + a') (b + b').
Proof. unfold counted. simpl. f_equal; lia. Qed.

Lemma counted_0 e : counted e 0 0 = e.
Proof. destruct e. unfold counted. simpl. f_equal; lia. Qed.

Lemma raised_raised e a b a' b' :
  raised (raised e a b) a' b' = raised e (a' + a) (b' + b).
Proof. unfold raised. simpl. by rewrite !Nat.iter_add. Qed.

Lemma raised_0 e : raised e 0 0 = e.
Proof. by destruct e. Qed.

(** Increments that stay within the integers that a number can count add
    up. *)
Lemma raised_counted e (a b : nat) :
  - 2 ^ 53 ≤ successCount e → successCount e + Z.of_nat a ≤ 2 ^ 53 →
  - 2 ^ 53 ≤ failureCount e → failureCount e + Z.of_nat b ≤ 2 ^ 53 →
  raised e a b = counted e (Z.of_nat a) (Z.of_nat b).
Proof.
  intros Hs Hs' Hf Hf'. unfold raised, counted.
  by rewrite !iter_increment_exact.
Qed.

Lemma countCalls_cons op o ops :
  countCalls op (o :: ops)
    = ((if decide (o = op) then 1 else 0) + countCalls op ops)%nat.
Proof.
  unfold countCalls. rewrite filter_cons. by destruct (decide (o = op)).
Qed.

Lemma bumpSuccess_raised e : bumpSuccess e = raised e 1 0.
Proof. reflexivity. Qed.

Lemma bumpFailure_raised e : bumpFailure e = raised e 0 1.
Proof. reflexivity. Qed.

Lemma updateSuccess_lookup k0 c fs k :
  cache (updateSuccess k0 c fs).1 !! k
    = (λ e, raised e (if decide (k0 = k) then 1 else 0) 0) <$> cache c !! k.
Proof.
  unfold updateSuccess. destruct (decide (k0 = k)) as [->|Hne].
  - destruct (cache c !! k) as [e|] eqn:He; cbn [fst cache with_cache].
    + by rewrite lookup_insert_eq, bumpSuccess_raised.
    + by rewrite He.
  - destruct (cache c !! k0) as [e0|]; cbn [fst cache with_cache];
      rewrite ?lookup_insert_ne by done;
      destruct (cache c !! k) as [e|]; simpl; by rewrite ?raised_0.
Qed.

Lemma updateFailure_lookup k0 c fs k :
  cache (updateFailure k0 c fs).1 !! k
    = (λ e, raised e 0 (if decide (k0 = k) then 1 else 0)) <$> cache c !! k.
Proof.
  unfold updateFailure. destruct (decide (k0 = k)) as [->|Hne].
  - destruct (cache c !! k) as [e|] eqn:He; cbn [fst cache with_cache].
    + by rewrite lookup_insert_eq, bumpFailure_raised.
    + by rewrite He.
  - destruct (cache c !! k0) as [e0|]; cbn [fst cache with_cache];
      rewrite ?lookup_insert_ne by done;
      destruct (cache c !! k) as [e|]; simpl; by rewrite ?raised_0.
Qed.

Lemma get_cache k c : cache (get k c).2 = cache c.
Proof. unfold get. by destruct (cache c !! k). Qed.

Lemma get_cachePath k c : cachePath (get k c).2 = cachePath c.
Proof. unfold get. by destruct (cache c !! k). Qed.

Lemma fmap_counted_0 (o : option CacheEntry) : (λ e, counted e 0 0) <$> o = o.
Proof. destruct o; simpl; by rewrite ?counted_0. Qed.

Lemma fmap_raised_0 (o : option CacheEntry) : (λ e, raised e 0 0) <$> o = o.
Proof. destruct o; simpl; by rewrite ?raised_0. Qed.

Lemma call_keeps_entry s op k :
  keepsKeys op = true →
  cache (call toISOString s op).1 !! k
    = (λ e, raised e (if decide (op = CallUpdateSuccess k) then 1 else 0)
                     (if decide (op = CallUpdateFailure k) then 1 else 0))
      <$> cache s.1 !! k.
Proof.
  intros Hk. destruct s as [c fs].
  destruct op as [k0|t k0 e0|k0|k0|k0| | | |]; try discriminate Hk; cbn [call fst snd].
  - rewrite !decide_False by discriminate. by rewrite get_cache, fmap_raised_0.
  - rewrite updateSuccess_lookup. rewrite (decide_False (P := _ = CallUpdateFailure k))
      by discriminate.
    destruct (decide (k0 = k)) as [->|Hne].
    + by rewrite decide_True.
    + by rewrite decide_False by congruence.
  - rewrite updateFailure_lookup. rewrite (decide_False (P := _ = CallUpdateSuccess k))
      by discriminate.
    destruct (decide (k0 = k)) as [->|Hne].
    + by rewrite decide_True.
    + by rewrite decide_False by congruence.
  - rewrite !decide_False by discriminate. by rewrite fmap_raised_0.
  - rewrite !decide_False by discriminate. by rewrite fmap_raised_0.
  - rewrite !decide_False by discriminate. by rewrite fmap_raised_0.
Qed.

Lemma calls_keep_entry ops s k :
  forallb keepsKeys ops = true →
  cache (calls toISOString ops s).1 !! k
    = (λ e, raised e (countCalls (CallUpdateSuccess k) ops)
                     (countCalls (CallUpdateFailure k) ops))
      <$> cache s.1 !! k.
Proof.
  revert s. induction ops as [|op ops IH]; intros s Hops.
  - simpl. destruct (cache s.1 !! k) as [e|]; simpl; by rewrite ?raised_0.
  - simpl in Hops. apply andb_prop in Hops as [Hop Hops].
    unfold calls in *. simpl foldl. rewrite IH by done.
    rewrite call_keeps_entry by done. rewrite !countCalls_cons.
    destruct (cache s.1 !! k) as [e|]; simpl; [|done].
    rewrite raised_raised. do 2 f_equal; lia.
Qed.

(** Reads and updates leave every entry in place, with its locators,
    strategy and timestamp, and an absent key stays absent: an entry has
    had [successCount++] and [failureCount++] applied to it as often as
    [updateSuccess] and [updateFailure] were called under its key. So its
    counts have grown by the numbers of these calls as long as they stay
    between -2^53 and 2^53; and a count that has reached 2^53 stays there,
    whatever the number of updates. *)
Theorem updates_accumulate ops s k :
  forallb keepsKeys ops = true →
  cache (calls toISOString ops s).1 !! k
    = (λ e, raised e (countCalls (CallUpdateSuccess k) ops)
                     (countCalls (CallUpdateFailure k) ops))
      <$> cache s.1 !! k
  ∧ (∀ e, cache s.1 !! k = Some e →
       - 2 ^ 53 ≤ successCount e →
       successCount e + Z.of_nat (countCalls (CallUpdateSuccess k) ops) ≤ 2 ^ 53 →
       - 2 ^ 53 ≤ failureCount e →
       failureCount e + Z.of_nat (countCalls (CallUpdateFailure k) ops) ≤ 2 ^ 53 →
       cache (calls toISOString ops s).1 !! k
         = Some (counted e (Z.of_nat (countCalls (CallUpdateSuccess k) ops))
                           (Z.of_nat (countCalls (CallUpdateFailure k) ops))))
  ∧ (∀ e, cache s.1 !! k = Some e →
       successCount e = 2 ^ 53 →
       successCount <$> cache (calls toISOString ops s).1 !! k = Some (2 ^ 53)).
Proof.
  intros Hops. pose proof (calls_keep_entry ops s k Hops) as Hall.
  split_and!; [exact Hall| |].
  - intros e He Hs Hs' Hf Hf'. rewrite Hall, He. simpl.
    by rewrite raised_counted.
  - intros e He Hs. rewrite Hall, He. simpl. f_equal.
    rewrite Hs. apply iter_increment_absorbed.
Qed.


(** *** Memory and file *)

Lemma call_memory s1 s2 op :
  s1.1 = s2.1 → (call toISOString s1 op).1 = (call toISOString s2 op).1.
Proof.
  destruct s1 as [c fs1], s2 as [c2 fs2]. simpl. intros <-.
  destruct op as [k0|t k0 e0|k0|k0|k0| | | |]; cbn [call fst snd]; try done;
    unfold updateSuccess, updateFailure, delete_; by destruct (cache c !! k0).
Qed.

Lemma saveCache_unwritable c fs : writable fs = false → saveCache c fs = fs.
Proof. intros Hw. unfold saveCache, writeFileSync. by rewrite Hw. Qed.

Lemma call_unwritable s op :
  writable s.2 = false → (call toISOString s op).2 = s.2.
Proof.
  destruct s as [c fs]. simpl. intros Hw.
  destruct op as [k0|t k0 e0|k0|k0|k0| | | |]; cbn [call fst snd]; try done;
    unfold set, updateSuccess, updateFailure, delete_, clear;
    try destruct (cache c !! k0); cbn [fst snd]; by rewrite ?saveCache_unwritable.
Qed.

(** No call reads the file: what a sequence of calls leaves in memory, and
    so what it returns, is the same on every disk; and a disk that refuses
    writes is left as it was. *)
Theorem storage_failure_is_absorbed ops c fs fs' :
  writable fs = false →
  (calls toISOString ops (c, fs)).2 = fs
  ∧ (calls toISOString ops (c, fs)).1 = (calls toISOString ops (c, fs')).1.
Proof.
  intros Hw. split.
  - revert c. induction ops as [|op ops IH]; intros c; [done|].
    unfold calls in *. simpl foldl.
    pose proof (call_unwritable (c, fs) op Hw) as Hd. simpl in Hd.
    destruct (call toISOString (c, fs) op) as [c1 fs1]. simpl in Hd. subst fs1.
    apply IH.
  - assert (∀ s1 s2, s1.1 = s2.1 →
              (calls toISOString ops s1).1 = (calls toISOString ops s2).1) as Hgen.
    { induction ops as [|op ops IH]; intros s1 s2 Heq; [done|].
      unfold calls in *. simpl foldl. apply IH. by apply call_memory. }
    by apply Hgen.
Qed.

Lemma call_cachePath s op : cachePath (call toISOString s op).1 = cachePath s.1.
Proof.
  destruct s as [c fs].
  destruct op as [k0|t k0 e0|k0|k0|k0| | | |]; cbn [call fst snd]; try done;
    unfold get, updateSuccess, updateFailure, delete_; by destruct (cache c !! k0).
Qed.

Lemma saveCache_writable_after c fs :
  writable fs = true → writable (saveCache c fs) = true.
Proof. intros Hw. unfold saveCache, writeFileSync. by rewrite Hw. Qed.

Lemma call_writable s op :
  writable s.2 = true → writable (call toISOString s op).2 = true.
Proof.
  destruct s as [c fs]. simpl. intros Hw.
  destruct op as [k0|t k0 e0|k0|k0|k0| | | |]; cbn [call fst snd]; try done;
    unfold set, updateSuccess, updateFailure, delete_, clear;
    try destruct (cache c !! k0); cbn [fst snd]; by rewrite ?saveCache_writable_after.
Qed.

Lemma saveCache_mirrored c fs : writable fs = true → mirrored (c, saveCache c fs).
Proof.
  intros Hw. unfold mirrored, saveCache, writeFileSync. rewrite Hw. simpl.
  apply lookup_insert_eq.
Qed.

Lemma call_mirrored s op :
  writable s.2 = true →
  saves op = true ∨ mirrored s →
  mirrored (call toISOString s op).
Proof.
  destruct s as [c fs]. simpl. intros Hw Hm.
  destruct op as [k0|t k0 e0|k0|k0|k0| | | |]; cbn [call fst snd];
    try (destruct Hm as [Hm|Hm]; [discriminate Hm|]).
  - unfold mirrored in *. cbn [fst snd] in *. by rewrite get_cache, get_cachePath.
  - unfold set. by apply saveCache_mirrored.
  - unfold updateSuccess. destruct (cache c !! k0); [by apply saveCache_mirrored|done].
  - unfold updateFailure. destruct (cache c !! k0); [by apply saveCache_mirrored|done].
  - unfold delete_. destruct (cache c !! k0); [by apply saveCache_mirrored|done].
  - unfold clear. by apply saveCache_mirrored.
  - by apply saveCache_mirrored.
  - done.
  - done.
Qed.

(** After a sequence of calls that contains a [set], a [clear] or a
    [saveCache], on a disk that takes writes, the file holds what the
    memory holds, whatever calls followed; a store opened on the file gets
    those entries less the expired ones. *)
Theorem saved_store_reopens ops c fs now :
  writable fs = true →
  existsb saves ops = true →
  mirrored (calls toISOString ops (c, fs))
  ∧ cache (new_LocalCache getTime now (cachePath c) (calls toISOString ops (c, fs)).2)
      = cleanupExpiredEntries getTime now 2 (cache (calls toISOString ops (c, fs)).1).
Proof.
  intros Hw Hs.
  assert (∀ ops s, writable s.2 = true →
            writable (calls toISOString ops s).2 = true
            ∧ cachePath (calls toISOString ops s).1 = cachePath s.1) as Hkeep.
  { clear. intros ops. induction ops as [|op ops IH]; intros s Hw; [done|].
    unfold calls in *. simpl foldl.
    destruct (IH (call toISOString s op) (call_writable s op Hw)) as [H1 H2].
    split; [done|]. by rewrite H2, call_cachePath. }
  assert (mirrored (calls toISOString ops (c, fs))) as Hm.
  { clear now. induction ops as [|op ops IH] using rev_ind; [done|].
    unfold calls in *. rewrite foldl_snoc.
    destruct (Hkeep ops (c, fs) Hw) as [Hw' _].
    apply call_mirrored; [exact Hw'|].
    rewrite existsb_app in Hs. simpl in Hs. rewrite orb_false_r in Hs.
    destruct (saves op); [by left|]. right. apply IH. by rewrite orb_false_r in Hs. }
  split; [exact Hm|].
  simpl. apply loadCache_cacheObject.
  destruct (Hkeep ops (c, fs) Hw) as [_ Hp]. simpl in Hp. rewrite <- Hp. exact Hm.
Qed.

End MoreStoreFacts.

(** ** Single calls on the store *)

Section StoreCallFacts.

Variable toISOString : Z → string.
Variable getTime : string → option Z.


(** [clear] empties the store and the file, so that a store opened on the
    file is empty, and leaves the request counters and the hit rate as
    they were. *)
Theorem clear_keeps_statistics c fs now :
  writable fs = true →
  cache (clear c fs).1 = ∅
  ∧ cache (new_LocalCache getTime now (cachePath c) (clear c fs).2) = ∅
  ∧ totalEntries (getStatistics (clear c fs).1) = 0%nat
  ∧ totalHits (getStatistics (clear c fs).1) = totalHits (getStatistics c)
  ∧ totalMisses (getStatistics (clear c fs).1) = totalMisses (getStatistics c)
  ∧ hitRate (getStatistics (clear c fs).1) = hitRate (getStatistics c).
Proof.
  intros Hw. split_and!; try done.
  simpl. rewrite (loadCache_cacheObject getTime now (cachePath c) _ ∅).
  - apply map_eq. intros k. by rewrite cleanupExpiredEntries_lookup, lookup_empty.
  - by apply (saveCache_mirrored (with_cache c ∅) fs).
Qed.

(** [totalEntries] counts the keys: a [set] adds one when the key is new
    and none when it overwrites, and a [delete] of a key that is present
    takes one away. *)
Theorem totalEntries_counts_keys now k entry c fs :
  totalEntries (getStatistics (set toISOString now k entry c fs).1)
    = (if decide (is_Some (cache c !! k))
       then totalEntries (getStatistics c)
       else S (totalEntries (getStatistics c)))
  ∧ (is_Some (cache c !! k) →
     S (totalEntries (getStatistics (delete_ k c fs).2.1))
       = totalEntries (getStatistics c)).
Proof.
  split.
  - simpl. case_decide as Hk.
    + destruct Hk as [e He]. by eapply map_size_insert_Some.
    + apply map_size_insert_None. by apply eq_None_not_Some.
  - intros [e He]. unfold delete_. rewrite He. simpl.
    rewrite <- (insert_id (cache c) k e He) at 2. rewrite <- insert_delete_eq.
    by rewrite map_size_insert_None by apply lookup_delete_eq.
Qed.

End StoreCallFacts.

(** ** Loading *)

Section LoadFacts.

Variable getTime : string → option Z.

Lemma loadEntries_invalid es (m : gmap string CacheEntry) :
  Forall (λ kv, isValidCacheEntry kv.2 = false) es → loadEntries es m = m.
Proof.
  intros H. revert m. induction H as [|kv es Hkv _ IH]; intros m; [done|].
  rewrite loadEntries_cons, Hkv. apply IH.
Qed.

Lemma indexed_chars_invalid s :
  Forall (λ kv, isValidCacheEntry kv.2 = false) (indexed (chars s)).
Proof.
  apply Forall_forall. intros [k v] Hin. unfold indexed in Hin.
  apply elem_of_lookup_imap in Hin as (i & x & [= -> ->] & Hx).
  apply list_elem_of_lookup_2 in Hx. simpl.
  assert (∃ t, x = JStr t) as [t ->].
  { clear i. induction s as [|a s IH]; simpl in Hx.
    - by apply elem_of_nil in Hx.
    - apply elem_of_cons in Hx as [->|Hx]; [eauto|by apply IH]. }
  unfold isValidCacheEntry. simpl. by rewrite !andb_false_r.
Qed.

(** A missing or unreadable file, and a document that is [null], a
    boolean, a number or a string, give an empty store. *)
Theorem degenerate_file_loads_empty now path fs :
  degenerate (files fs !! path) = true →
  loadCache getTime now path fs = ∅.
Proof.
  unfold loadCache. destruct (files fs !! path) as [[|[| | |s| |]]|]; simpl; try done.
  intros _. rewrite loadEntries_invalid by apply indexed_chars_invalid.
  apply map_eq. intros k. by rewrite cleanupExpiredEntries_lookup, lookup_empty.
Qed.

Lemma indexed_keys (l : list json) : (indexed l).*1 = pretty <$> seq 0 (length l).
Proof.
  unfold indexed. rewrite fmap_imap.
  rewrite <- (imap_seq_0 l (λ i, pretty i)). done.
Qed.

Lemma indexed_lookup (l : list json) (i : nat) :
  (list_to_map (indexed l) : gmap string json) !! pretty i = l !! i.
Proof.
  assert (NoDup (indexed l).*1) as Hnd.
  { rewrite indexed_keys. apply NoDup_fmap_2; [apply _|apply NoDup_seq]. }
  destruct (l !! i) as [v|] eqn:Hi.
  - apply elem_of_list_to_map; [done|].
    apply (elem_of_lookup_imap_2 (λ i v, (pretty i, v)) l v i Hi).
  - apply not_elem_of_list_to_map. rewrite indexed_keys.
    intros (j & Hj & Hin)%list_elem_of_fmap. apply (inj pretty) in Hj as <-.
    apply elem_of_seq in Hin. apply lookup_ge_None in Hi. lia.
Qed.

(** A document that is an array is taken as a map from the decimal
    indices to the elements: the valid elements that have not expired are
    loaded under their index, and nothing is loaded under another key. *)
Theorem array_document_loads_by_index now path fs (l : list json) :
  files fs !! path = Some (Document (JArr l)) →
  (∀ i : nat,
     loadCache getTime now path fs !! pretty i
       = match l !! i with
         | Some v =>
             if isValidCacheEntry v
                && negb (expired getTime now loadMaxAge (asCacheEntry v))
             then Some (asCacheEntry v)
             else None
         | None => None
         end)
  ∧ (∀ k, is_Some (loadCache getTime now path fs !! k) →
          ∃ i : nat, k = pretty i ∧ (i < length l)%nat).
Proof.
  intros Hf.
  assert (NoDup (indexed l).*1) as Hnd.
  { rewrite indexed_keys. apply NoDup_fmap_2; [apply _|apply NoDup_seq]. }
  assert (∀ k, loadCache getTime now path fs !! k
             = match (list_to_map (indexed l) : gmap string json) !! k with
               | Some v =>
                   if isValidCacheEntry v
                      && negb (expired getTime now loadMaxAge (asCacheEntry v))
                   then Some (asCacheEntry v)
                   else None
               | None => None
               end) as Hl.
  { intros k. unfold loadCache. rewrite Hf. simpl.
    rewrite cleanupExpiredEntries_lookup, loadEntries_lookup, lookup_empty by done.
    destruct (list_to_map (indexed l) !! k) as [v|]; [|done].
    destruct (isValidCacheEntry v); [|done]. simpl.
    by destruct (expired _ _ _ _). }
  split.
  - intros i. by rewrite Hl, indexed_lookup.
  - intros k [e He]. rewrite Hl in He.
    destruct (list_to_map (indexed l) !! k) as [v|] eqn:Hv; [|done].
    apply elem_of_list_to_map in Hv; [|done].
    apply elem_of_lookup_imap in Hv as (i & x & [= -> ->] & Hx).
    exists i. split; [done|]. by eapply lookup_lt_Some.
Qed.

(** The age rule of a load: a valid entry of an object document is loaded
    exactly when its timestamp is no date or lies at most two days, the
    bound included, before the load. *)
Theorem load_age_rule now path fs (o : gmap string json) k v :
  files fs !! path = Some (Document (JObj o)) →
  o !! k = Some v →
  isValidCacheEntry v = true →
  loadCache getTime now path fs !! k = Some (asCacheEntry v)
  ↔ getTime (timestamp (asCacheEntry v)) = None
    ∨ ∃ t, getTime (timestamp (asCacheEntry v)) = Some t ∧ now - t ≤ 172800000.
Proof.
  intros Hf Hk Hv. rewrite (loadCache_object_lookup getTime now path fs o k Hf), Hk, Hv.
  unfold expired, loadMaxAge. cbn [andb].
  destruct (getTime (timestamp (asCacheEntry v))) as [t|].
  - destruct (Z.ltb_spec (2 * 24 * 60 * 60 * 1000) (now - t)) as [Hlt|Hge]; cbn [negb].
    + split; [done|]. intros [?|(t' & [= <-] & ?)]; [done|lia].
    + split; [|done]. intros _. right. exists t. split; [done|lia].
  - cbn [negb]. split; [by left|done].
Qed.

Lemma expired_mono now now' maxAge e :
  now ≤ now' → expired getTime now maxAge e = true → expired getTime now' maxAge e = true.
Proof.
  intros Hle. unfold expired. destruct (getTime (timestamp e)) as [t|]; [|done].
  intros H%Z.ltb_lt. apply Z.ltb_lt. lia.
Qed.

(** What a later load of a file returns is part of what an earlier load
    of the same file returns. *)
Theorem later_load_is_smaller now now' path fs :
  now ≤ now' →
  loadCache getTime now' path fs ⊆ loadCache getTime now path fs.
Proof.
  intros Hle. unfold loadCache.
  destruct (files fs !! path) as [[|j]|]; try done.
  destruct (Object_entries j) as [es|]; [|done].
  apply map_subseteq_spec. intros k e.
  rewrite !cleanupExpiredEntries_lookup.
  destruct (loadEntries es ∅ !! k) as [e'|]; [|done].
  destruct (expired getTime now' _ e') eqn:H'; [done|].
  destruct (expired getTime now _ e') eqn:H; [|done].
  by rewrite (expired_mono now now' _ e' Hle H) in H'.
Qed.

(** Only an object is a valid entry, one whose six fields are strings
    and numbers as declared; and the object written for an entry is valid
    and reads back as the entry. *)
Theorem valid_entries_are_objects v :
  (isValidCacheEntry v = true
   ↔ ∃ (o : gmap string json) a b c d (m n : Z),
       v = JObj o
       ∧ o !! "originalLocator" = Some (JStr a)
       ∧ o !! "generatedLocator" = Some (JStr b)
       ∧ o !! "strategy" = Some (JStr c)
       ∧ o !! "timestamp" = Some (JStr d)
       ∧ o !! "successCount" = Some (JNum m)
       ∧ o !! "failureCount" = Some (JNum n))
  ∧ (∀ e, isValidCacheEntry (entryJson e) = true ∧ asCacheEntry (entryJson e) = e).
Proof.
  split; [|intros e; split;
            [apply isValidCacheEntry_entryJson|apply asCacheEntry_entryJson]].
  unfold isValidCacheEntry. split.
  - intros H. repeat (apply andb_prop in H as [H ?]).
    destruct v as [| | | | |o]; simpl in *; try done.
    repeat match goal with
           | H : bool_decide (typeof ?x = _) = true |- _ =>
               apply bool_decide_eq_true in H;
               let E := fresh "E" in destruct x as [[]|] eqn:E; try discriminate H; clear H
           end.
    eauto 20.
  - intros (o & a & b & c & d & m & n & -> & H1 & H2 & H3 & H4 & H5 & H6).
    simpl. by rewrite H1, H2, H3, H4, H5, H6.
Qed.

End LoadFacts.

(** ** The configuration *)

Lemma nonempty_true (s : string) : nonempty s = true ↔ s ≠ "".
Proof.
  unfold nonempty. destruct (String.eqb_spec s ""); simpl; split; congruence.
Qed.

Lemma loadConfig_defaultConfig (vars : gmap string string) :
  loadConfig vars (defaultConfig vars) = defaultConfig vars.
Proof.
  unfold loadConfig, defaultConfig, envSet, envOr. simpl.
  f_equal.
  - by destruct (vars !! "USE_SMART_LOCATOR") as [v|]; [destruct (nonempty v)|].
  - by destruct (vars !! "RUN_WITH_SMART_LOCATOR") as [v|]; [destruct (nonempty v)|].
  - by destruct (vars !! "CACHE_PATH") as [v|]; [destruct (nonempty v)|].
  - by destruct (vars !! "OPENAI_MODEL") as [v|]; [destruct (nonempty v)|].
  - by destruct (vars !! "OPENAI_API_KEY") as [v|]; [destruct (nonempty v)|].
Qed.

(** On the environment from which the defaults were computed, the
    constructor's [loadConfig] changes nothing: a variable that is unset or
    empty leaves the default, and one that is set gives what the default
    already took from it. *)
Theorem constructor_keeps_defaults (vars : gmap string string) :
  new_ConfigManager vars vars = defaultConfig vars.
Proof. apply loadConfig_defaultConfig. Qed.

(** Healing is enabled exactly when [USE_SMART_LOCATOR] is the string
    [true] and [OPENAI_API_KEY] is set and not empty; the healing mode needs
    [RUN_WITH_SMART_LOCATOR] to be [true] as well, so it is never on while
    healing is disabled. *)
Theorem healing_enabled_by_environment (vars : gmap string string) :
  (isSmartLocatorEnabled (new_ConfigManager vars vars) = true
   ↔ vars !! "USE_SMART_LOCATOR" = Some "true"
     ∧ ∃ key, vars !! "OPENAI_API_KEY" = Some key ∧ key ≠ "")
  ∧ (shouldRunWithSmartLocator (new_ConfigManager vars vars) = true
     ↔ vars !! "RUN_WITH_SMART_LOCATOR" = Some "true"
       ∧ isSmartLocatorEnabled (new_ConfigManager vars vars) = true)
  ∧ (∀ c, shouldRunWithSmartLocator c = true → isSmartLocatorEnabled c = true).
Proof.
  unfold new_ConfigManager. rewrite loadConfig_defaultConfig.
  unfold shouldRunWithSmartLocator, isSmartLocatorEnabled, defaultConfig, envIsTrue, envOr.
  simpl. split_and!.
  - rewrite andb_true_iff, bool_decide_eq_true, nonempty_true.
    split; intros [Hu Hk]; (split; [done|]).
    + destruct (vars !! "OPENAI_API_KEY") as [v|]; [|done].
      exists v. split; [done|]. intros ->. apply Hk. by destruct (nonempty "").
    + destruct Hk as (key & -> & Hne). pose proof Hne as Hne'.
      apply nonempty_true in Hne'. by rewrite Hne'.
  - by rewrite andb_true_iff, bool_decide_eq_true.
  - intros c. by intros [_ H]%andb_prop.
Qed.

(** ** The logger *)

Lemma console_cons l c calls :
  console l (c :: calls)
    = if shouldLog l (callLevel c) then c :: console l calls else console l calls.
Proof.
  unfold console. rewrite filter_cons.
  destruct (shouldLog l (callLevel c)); [by rewrite decide_True|by rewrite decide_False].
Qed.

(** What reaches the console. A logger that is disabled writes nothing,
    and raising the level of an enabled logger only adds lines. An enabled
    logger writes the calls of [error] and [logSelfHealingFailure] at every
    level, those of [warn] at every level but [ERROR], those of
    [logApiCall], [logSmartLocatorGeneration] and [logSelfHealingSuccess]
    at [INFO] and [DEBUG], and those of [logCacheHit] and [logCacheMiss] at
    [DEBUG] only. The generator takes the level from the configured name,
    and [INFO] for a name that is none of the four: its logger then writes
    everything but the cache hits and misses. *)
Theorem console_levels (l1 l2 : Logger) (calls : list LogCall) :
  lg_enableLogging l2 = true →
  levelNumber (lg_logLevel l1) ≤ levelNumber (lg_logLevel l2) →
  console l1 calls `sublist_of` console l2 calls
  ∧ (lg_enableLogging l1 = false → console l1 calls = [])
  ∧ (∀ c, c ∈ console l2 calls
          ↔ c ∈ calls
            ∧ match c with
              | LogError _ | LogSelfHealingFailure _ _ => True
              | LogWarn _ => lg_logLevel l2 ≠ ERROR
              | LogApiCall _ | LogSmartLocatorGeneration _ _ _
              | LogSelfHealingSuccess _ _ =>
                  lg_logLevel l2 = INFO ∨ lg_logLevel l2 = DEBUG
              | LogCacheHit _ _ | LogCacheMiss _ => lg_logLevel l2 = DEBUG
              end)
  ∧ getLogLevel "error" = ERROR ∧ getLogLevel "warn" = WARN
  ∧ getLogLevel "info" = INFO ∧ getLogLevel "debug" = DEBUG
  ∧ (∀ name,
       name ≠ "error" → name ≠ "warn" → name ≠ "debug" →
       console {| lg_logLevel := getLogLevel name; lg_enableLogging := true |} calls
         = filter (λ c, match c with
                        | LogCacheHit _ _ | LogCacheMiss _ => false
                        | _ => true
                        end = true) calls).
Proof.
  intros Hen Hle. split_and!; try reflexivity.
  - induction calls as [|c calls IH]; [done|].
    rewrite !console_cons. unfold shouldLog at 1 2. rewrite Hen. simpl.
    destruct (lg_enableLogging l1); simpl.
    + destruct (Z.leb_spec (levelNumber (callLevel c)) (levelNumber (lg_logLevel l1))).
      * rewrite (proj2 (Z.leb_le _ _)) by lia. by apply sublist_skip.
      * destruct (_ <=? _); [by apply sublist_cons|done].
    + destruct (_ <=? _); [by apply sublist_cons|done].
  - intros Hoff. induction calls as [|c calls IH]; [done|].
    rewrite console_cons. unfold shouldLog. by rewrite Hoff.
  - intros c. unfold console. rewrite list_elem_of_filter.
    unfold shouldLog. rewrite Hen.
    destruct c, (lg_logLevel l2); simpl;
      (split;
       [intros [Ha Hb]; split; [exact Hb|]; first [done|by left|by right]
       |intros [Ha Hb]; split; [|exact Ha]; first [done|by destruct Hb as [Hb|Hb]]]).
  - intros name H1 H2 H3.
    assert (getLogLevel name = INFO) as ->.
    { unfold getLogLevel.
      destruct (String.eqb_spec name "error"); [done|].
      destruct (String.eqb_spec name "warn"); [done|].
      destruct (String.eqb_spec name "info"); [done|].
      by destruct (String.eqb_spec name "debug"). }
    induction calls as [|c calls IH]; [done|].
    rewrite console_cons, filter_cons, IH. unfold shouldLog. simpl.
    by destruct c.
Qed.

(** ** Every path of a resolution *)

Section MoreResolverFacts.

Variable toISOString : Z → string.
Variable getTime : string → option Z.
Variable env : Env.

Ltac js_unfold :=
  unfold getLocatorWithWait, resolveSmartLocator, generateSmartLocator, callOpenAI,
    updateCacheSuccess, updateCacheFailure, validateLocator, try_catch, onCache,
    cacheGet, logCall, getConfigManager, getGenerator, throw,
    mbind, M_bind, bind, mret, M_ret, ret.

Ltac world_eq :=
  unfold evolve, with_log, with_store, store; simpl;
  rewrite <- ?app_assoc; simpl; reflexivity.

Lemma updateSuccess_cachePath k c fs : cachePath (updateSuccess k c fs).1 = cachePath c.
Proof. unfold updateSuccess. by destruct (cache c !! k). Qed.

Lemma updateFailure_cachePath k c fs : cachePath (updateFailure k c fs).1 = cachePath c.
Proof. unfold updateFailure. by destruct (cache c !! k). Qed.

(** The counts of a new entry are 0, where an increment adds 1. *)
Lemma bumpSuccess_written wr :
  bumpSuccess (written toISOString wr) = counted (written toISOString wr) 1 0.
Proof. reflexivity. Qed.

Lemma bumpFailure_written wr :
  bumpFailure (written toISOString wr) = counted (written toISOString wr) 0 1.
Proof. reflexivity. Qed.

Lemma resolveSmartLocator_disabled page orig options w :
  isSmartLocatorEnabled (config w) = false →
  resolveSmartLocator toISOString env page orig options w
    = (Throw (SelfHealingLocatorError (disabledMessage orig) orig None), w).
Proof. intros Hen. js_unfold. by rewrite Hen. Qed.

Lemma resolveSmartLocator_hit_empty page orig options w e :
  isSmartLocatorEnabled (config w) = true →
  cache (store w) !! orig = Some e →
  nonempty (generatedLocator e) = false →
  resolveSmartLocator toISOString env page orig options w
    = (Throw (SelfHealingLocatorError (generationFailedMessage orig) orig None),
       evolve w (countHit (store w)) (disk w)
         [LogCacheHit orig (generatedLocator e);
          LogSelfHealingFailure orig (generationFailedMessage orig)]).
Proof.
  intros Hen Hhit Hne. js_unfold. rewrite Hen. simpl.
  unfold get. rewrite Hhit. simpl. rewrite Hne. simpl. f_equal. world_eq.
Qed.

Lemma resolveSmartLocator_no_client page orig options w :
  isSmartLocatorEnabled (config w) = true →
  cache (store w) !! orig = None →
  openai (generator w) = false →
  resolveSmartLocator toISOString env page orig options w
    = (Throw (SelfHealingLocatorError (generationFailedMessage orig) orig None),
       evolve w (countMiss (store w)) (disk w)
         [LogCacheMiss orig;
          LogError "OpenAI client not initialized. Cannot generate smart locator.";
          LogSelfHealingFailure orig (generationFailedMessage orig)]).
Proof.
  intros Hen Hmiss Hai. js_unfold. rewrite Hen. simpl.
  unfold get. rewrite Hmiss. simpl. rewrite Hai. simpl. f_equal. world_eq.
Qed.

Lemma resolveSmartLocator_no_reply page orig options w :
  isSmartLocatorEnabled (config w) = true →
  cache (store w) !! orig = None →
  openai (generator w) = true →
  match completion env (generationRequest page orig options) with
  | Some r => nonempty (locator r) && nonempty (resp_strategy r)
  | None => false
  end = false →
  resolveSmartLocator toISOString env page orig options w
    = (Throw (SelfHealingLocatorError (generationFailedMessage orig) orig None),
       evolve w (countMiss (store w)) (disk w)
         [LogCacheMiss orig;
          LogApiCall (openApiModel (gen_config (generator w)));
          LogError "OpenAI API call failed";
          LogSelfHealingFailure orig (generationFailedMessage orig)]).
Proof.
  intros Hen Hmiss Hai Hr. js_unfold. rewrite Hen. simpl.
  unfold get. rewrite Hmiss. simpl. rewrite Hai. simpl.
  destruct (completion env (generationRequest page orig options)) as [r|]; simpl.
  - assert (negb (nonempty (locator r)) || negb (nonempty (resp_strategy r)) = true)
      as -> by (by destruct (nonempty (locator r)), (nonempty (resp_strategy r))).
    simpl. f_equal. world_eq.
  - f_equal. world_eq.
Qed.

(** The table of a resolution after the original locator failed: in each
    case the result, the store, the disk and the calls logged. *)
Lemma resolveSmartLocator_cases page orig options w :
  ∃ c fs calls res,
    resolveSmartLocator toISOString env page orig options w = (res, evolve w c fs calls)
    ∧ resolvePath toISOString env page orig options w c fs calls res.
Proof.
  unfold resolvePath.
  destruct (isSmartLocatorEnabled (config w)) eqn:Hen.
  - destruct (cache (store w) !! orig) as [e|] eqn:Hlook.
    + destruct (nonempty (generatedLocator e)) eqn:Hne.
      * rewrite (resolveSmartLocator_hit _ _ _ _ _ _ _ Hen Hlook Hne).
        destruct (waitFor page (generatedLocator e) (timeoutOf options)) eqn:Hval;
          do 4 eexists; (split; [reflexivity|]); right; left; (split; [done|]);
          exists e; (split; [done|]); right; [left|right]; by split_and!.
      * rewrite (resolveSmartLocator_hit_empty _ _ _ _ _ Hen Hlook Hne).
        do 4 eexists. split; [reflexivity|]. right. left. split; [done|].
        exists e. split; [done|]. left. by split_and!.
    + destruct (openai (generator w)) eqn:Hai.
      * destruct (match completion env (generationRequest page orig options) with
                  | Some r => nonempty (locator r) && nonempty (resp_strategy r)
                  | None => false
                  end) eqn:Hr.
        -- destruct (completion env (generationRequest page orig options))
             as [r|] eqn:Hc; [|done].
           apply andb_prop in Hr as [Hl Hs].
           pose proof (resolveSmartLocator_fresh toISOString env
                         page orig options w r Hen Hlook Hai Hc Hl Hs) as Hres.
           cbv zeta in Hres. rewrite Hres.
           assert (cache (set toISOString (now env) orig (responseEntry orig r)
                            (countMiss (store w)) (disk w)).1 !! orig
                   = Some (written toISOString (now env, orig, responseEntry orig r)))
             as Hset by (simpl; apply lookup_insert_eq).
           destruct (waitFor page (locator r) (timeoutOf options)) eqn:Hval;
             do 4 eexists; (split; [reflexivity|]); right; right;
             (split; [done|]); (split; [done|]); right; right; (split; [done|]).
           ++ exists r, 1, 0. split; [done|]. split; [left; by split_and!|].
              destruct (updateSuccess_hit orig _ (set toISOString (now env) orig
                          (responseEntry orig r) (countMiss (store w)) (disk w)).2 _ Hset)
                as (Hc1 & Hc2 & Hc3).
              split_and!.
              ** rewrite Hc1, bumpSuccess_written. simpl. apply insert_insert_eq.
              ** by rewrite Hc2.
              ** by rewrite Hc3.
              ** by rewrite updateSuccess_cachePath.
           ++ exists r, 0, 1. split; [done|]. split; [right; by split_and!|].
              destruct (updateFailure_hit orig _ (set toISOString (now env) orig
                          (responseEntry orig r) (countMiss (store w)) (disk w)).2 _ Hset)
                as (Hc1 & Hc2 & Hc3).
              split_and!.
              ** rewrite Hc1, bumpFailure_written. simpl. apply insert_insert_eq.
              ** by rewrite Hc2.
              ** by rewrite Hc3.
              ** by rewrite updateFailure_cachePath.
        -- rewrite (resolveSmartLocator_no_reply _ _ _ _ Hen Hlook Hai Hr).
           do 4 eexists. split; [reflexivity|]. right. right. split; [done|].
           split; [done|]. right. left. by split_and!.
      * rewrite (resolveSmartLocator_no_client _ _ _ _ Hen Hlook Hai).
        do 4 eexists. split; [reflexivity|]. right. right. split; [done|].
        split; [done|]. left. by split_and!.
  - rewrite (resolveSmartLocator_disabled _ _ _ _ Hen).
    exists (store w), (disk w), [],
      (Throw (SelfHealingLocatorError (disabledMessage orig) orig None)).
    split; [|left; by split_and!].
    f_equal. destruct w as [cfg [o g c] d lg]. unfold evolve, with_log, with_store, store.
    simpl. by rewrite app_nil_r.
Qed.


Lemma evolve_with_log w c fs calls more :
  with_log more (evolve w c fs calls) = evolve w c fs (calls ++ more).
Proof. unfold evolve, with_log, with_store. simpl. by rewrite app_assoc. Qed.


(** The same table for [getLocatorWithWait]. *)
Lemma getLocatorWithWait_cases page orig options w :
  (waitForFirst page orig (timeoutOf options) = true
   ∧ getLocatorWithWait toISOString env page orig options w = (Ok orig, w))
  ∨ (waitForFirst page orig (timeoutOf options) = false
     ∧ ∃ c fs calls res,
         resolvePath toISOString env page orig options w c fs calls res
         ∧ getLocatorWithWait toISOString env page orig options w
           = match res with
             | Ok smart =>
                 if shouldRunWithSmartLocator (config w)
                 then (Ok smart, evolve w c fs calls)
                 else (Throw (Error (suggestionMessage orig smart)),
                       evolve w c fs
                         (calls ++ [LogWarn (suggestionMessage orig smart)]))
             | Throw e => (Throw e, evolve w c fs calls)
             end).
Proof.
  destruct (waitForFirst page orig (timeoutOf options)) eqn:Horig.
  - left. split; [done|]. by apply getLocatorWithWait_original.
  - right. split; [done|].
    destruct (resolveSmartLocator_cases page orig options w)
      as (c & fs & calls & res & Hres & Hpath).
    exists c, fs, calls, res. split; [done|].
    rewrite (getLocatorWithWait_fallback _ _ _ _ _ _ Horig), Hres.
    destruct res as [smart|e]; [|done].
    change (config (evolve w c fs calls)) with (config w).
    destruct (shouldRunWithSmartLocator (config w)); [done|].
    by rewrite evolve_with_log.
Qed.


Ltac on_paths H :=
  unfold resolvePath in H;
  destruct H as
    [(Hen & -> & -> & -> & ->)
    |[(Hen & e & Hlook
       & [(Hne & -> & -> & -> & ->)
         |[(Hne & Hval & -> & -> & -> & ->)
          |(Hne & Hval & -> & -> & -> & ->)]])
     |(Hen & Hlook
       & [(Hai & -> & -> & -> & ->)
         |[(Hai & -> & -> & -> & ->)
          |(Hai & r & ok & ko & Hl
            & [(-> & -> & -> & ->)|(-> & -> & -> & ->)] & Hc & Hh & Hm & Hp)]])]].

Lemma updateSuccess_counters k c fs :
  hits (updateSuccess k c fs).1 = hits c ∧ misses (updateSuccess k c fs).1 = misses c.
Proof. unfold updateSuccess. by destruct (cache c !! k). Qed.

Lemma updateFailure_counters k c fs :
  hits (updateFailure k c fs).1 = hits c ∧ misses (updateFailure k c fs).1 = misses c.
Proof. unfold updateFailure. by destruct (cache c !! k). Qed.

(** A resolution reads the store once when the original locator fails
    and healing is enabled, and not at all otherwise: the sum of the hit
    and miss counters grows by one or stays. The configuration, the client
    and the path of the store stay as they are. *)
Theorem resolution_reads_store_once page orig options w :
  (hits (store (getLocatorWithWait toISOString env page orig options w).2)
   + misses (store (getLocatorWithWait toISOString env page orig options w).2))%N
    = (hits (store w) + misses (store w)
       + (if waitForFirst page orig (timeoutOf options) then 0
          else if isSmartLocatorEnabled (config w) then 1 else 0))%N
  ∧ config (getLocatorWithWait toISOString env page orig options w).2 = config w
  ∧ openai (generator (getLocatorWithWait toISOString env page orig options w).2)
      = openai (generator w)
  ∧ cachePath (store (getLocatorWithWait toISOString env page orig options w).2)
      = cachePath (store w).
Proof.
  destruct (getLocatorWithWait_cases page orig options w)
    as [[Horig ->]|(Horig & c & fs & calls & res & Hpath & ->)]; rewrite Horig.
  - cbn [snd]. split_and!; [lia|done..].
  - assert (∀ more,
      (match res with
       | Ok smart =>
           if shouldRunWithSmartLocator (config w)
           then (Ok smart, evolve w c fs calls)
           else (Throw (Error (suggestionMessage orig smart)),
                 evolve w c fs (calls ++ more smart))
       | Throw e => (Throw e, evolve w c fs calls)
       end).2 = evolve w c fs (match res with
                               | Ok smart =>
                                   if shouldRunWithSmartLocator (config w)
                                   then calls else calls ++ more smart
                               | Throw _ => calls
                               end)) as Hw.
    { intros more. destruct res; [|done].
      by destruct (shouldRunWithSmartLocator (config w)). }
    rewrite (Hw (λ smart, [LogWarn (suggestionMessage orig smart)])).
    rewrite store_evolve. clear Hw.
    split_and!; try done.
    + on_paths Hpath; rewrite Hen; cbn [hits misses countHit countMiss];
        rewrite ?(proj1 (updateSuccess_counters _ _ _)),
                ?(proj2 (updateSuccess_counters _ _ _)),
                ?(proj1 (updateFailure_counters _ _ _)),
                ?(proj2 (updateFailure_counters _ _ _)); cbn [hits misses countHit];
        try lia.
    + on_paths Hpath;
        by rewrite ?updateSuccess_cachePath, ?updateFailure_cachePath.
Qed.


Lemma getLocatorWithWait_shape page orig options w :
  (waitForFirst page orig (timeoutOf options) = true
   ∧ getLocatorWithWait toISOString env page orig options w = (Ok orig, w))
  ∨ (waitForFirst page orig (timeoutOf options) = false
     ∧ ∃ c fs calls res,
         resolvePath toISOString env page orig options w c fs calls res
         ∧ (getLocatorWithWait toISOString env page orig options w).1
           = match res with
             | Ok smart =>
                 if shouldRunWithSmartLocator (config w)
                 then Ok smart else Throw (Error (suggestionMessage orig smart))
             | Throw e => Throw e
             end
         ∧ (getLocatorWithWait toISOString env page orig options w).2
           = evolve w c fs
               (calls ++ match res with
                         | Ok smart =>
                             if shouldRunWithSmartLocator (config w)
                             then [] else [LogWarn (suggestionMessage orig smart)]
                         | Throw _ => []
                         end)).
Proof.
  destruct (getLocatorWithWait_cases page orig options w)
    as [H|(Horig & c & fs & calls & res & Hpath & ->)]; [by left|].
  right. split; [done|]. exists c, fs, calls, res. split; [done|].
  destruct res as [smart|e]; [|by rewrite app_nil_r].
  destruct (shouldRunWithSmartLocator (config w)); [by rewrite app_nil_r|done].
Qed.

Lemma resolution_frame page orig options w :
  (∀ k, k ≠ orig →
        cache (store (getLocatorWithWait toISOString env page orig options w).2) !! k
          = cache (store w) !! k)
  ∧ (∀ e, cache (store w) !! orig = Some e →
          ∃ ok ko : nat,
            cache (store (getLocatorWithWait toISOString env page orig options w).2)
              !! orig = Some (raised e ok ko)
            ∧ (ok + ko ≤ 1)%nat).
Proof.
  destruct (getLocatorWithWait_shape page orig options w)
    as [[Horig ->]|(Horig & c & fs & calls & res & Hpath & _ & ->)].
  - split; [done|]. intros e He. exists 0%nat, 0%nat. rewrite raised_0.
    split; [done|lia].
  - rewrite store_evolve. split.
    + intros k Hk. on_paths Hpath; cbn [cache countHit countMiss];
        rewrite ?updateSuccess_lookup, ?updateFailure_lookup, ?decide_False by done;
        cbn [cache countHit countMiss]; rewrite ?fmap_raised_0; try done;
        by rewrite Hc, lookup_insert_ne.
    + intros e0 He0. on_paths Hpath; try congruence;
        rewrite ?Hlook in He0; simplify_eq.
      * exists 0%nat, 0%nat. rewrite raised_0. split; [done|lia].
      * exists 0%nat, 0%nat. cbn [cache countHit]. rewrite Hlook, raised_0.
        split; [done|lia].
      * exists 1%nat, 0%nat. rewrite updateSuccess_lookup, decide_True by done.
        cbn [cache countHit]. rewrite Hlook. split; [done|lia].
      * exists 0%nat, 1%nat. rewrite updateFailure_lookup, decide_True by done.
        cbn [cache countHit]. rewrite Hlook. split; [done|lia].
Qed.

(** A resolution touches the entry of its own key only: the entries of
    the other keys are as before, and an entry that the key had keeps its
    locators, strategy and timestamp and has had [successCount++] or
    [failureCount++] applied to it once, or neither; so no resolution
    removes or replaces a cached locator. When the counts of the entry lie
    from -2^53 up to 2^53 - 1, one of them is raised by one, or none. *)
Theorem resolution_touches_one_entry page orig options w :
  (∀ k, k ≠ orig →
        cache (store (getLocatorWithWait toISOString env page orig options w).2) !! k
          = cache (store w) !! k)
  ∧ (∀ e, cache (store w) !! orig = Some e →
          ∃ e',
            cache (store (getLocatorWithWait toISOString env page orig options w).2)
              !! orig = Some e'
            ∧ originalLocator e' = originalLocator e
            ∧ generatedLocator e' = generatedLocator e
            ∧ strategy e' = strategy e
            ∧ timestamp e' = timestamp e
            ∧ ((successCount e' = successCount e ∧ failureCount e' = failureCount e)
               ∨ (successCount e' = increment (successCount e)
                  ∧ failureCount e' = failureCount e)
               ∨ (successCount e' = successCount e
                  ∧ failureCount e' = increment (failureCount e))))
  ∧ (∀ e, cache (store w) !! orig = Some e →
          - 2 ^ 53 ≤ successCount e < 2 ^ 53 →
          - 2 ^ 53 ≤ failureCount e < 2 ^ 53 →
          ∃ ok ko,
            cache (store (getLocatorWithWait toISOString env page orig options w).2)
              !! orig = Some (counted e ok ko)
            ∧ 0 ≤ ok ∧ 0 ≤ ko ∧ ok + ko ≤ 1).
Proof.
  destruct (resolution_frame page orig options w) as [Hother Hown].
  split_and!; [exact Hother| |].
  - intros e He. destruct (Hown e He) as (ok & ko & -> & Hle).
    eexists. split; [done|]. split_and!; [done..|].
    destruct ok as [|[|ok]], ko as [|[|ko]]; try lia; simpl; auto.
  - intros e He Hs Hf. destruct (Hown e He) as (ok & ko & -> & Hle).
    exists (Z.of_nat ok), (Z.of_nat ko).
    rewrite raised_counted by lia. split_and!; [done|lia..].
Qed.

Lemma count_app (P : LogCall → bool) (l1 l2 : list LogCall) :
  length (filter (λ c, P c = true) (l1 ++ l2))
    = (length (filter (λ c, P c = true) l1) + length (filter (λ c, P c = true) l2))%nat.
Proof. by rewrite filter_app, length_app. Qed.

(** The provider is called once in a resolution in which the original
    locator fails, healing is enabled, the store has no entry for the key
    and the client exists, and in no other resolution. *)
Theorem provider_called_only_on_miss page orig options w :
  length (filter (λ c, isApiCall c = true)
            (log (getLocatorWithWait toISOString env page orig options w).2))
    = (length (filter (λ c, isApiCall c = true) (log w))
       + (if negb (waitForFirst page orig (timeoutOf options))
             && isSmartLocatorEnabled (config w)
             && bool_decide (cache (store w) !! orig = None)
             && openai (generator w)
          then 1 else 0))%nat.
Proof.
  destruct (getLocatorWithWait_shape page orig options w)
    as [[Horig ->]|(Horig & c & fs & calls & res & Hpath & _ & ->)]; rewrite Horig.
  - simpl. lia.
  - change (log (evolve w c fs ?l)) with (log w ++ l). rewrite !count_app.
    on_paths Hpath; rewrite Hen; cbn [negb andb];
      rewrite ?Hlook, ?Hai; try rewrite bool_decide_eq_false_2 by done;
      try rewrite bool_decide_eq_true_2 by done; cbn [andb];
      try destruct (shouldRunWithSmartLocator (config w)); simpl; lia.
Qed.

(** When every cached locator is non-empty, a resolution leaves it so:
    what it adds to the store is a reply whose locator is not empty. *)
Theorem cached_locators_stay_nonempty page orig options w :
  (∀ k e, cache (store w) !! k = Some e → nonempty (generatedLocator e) = true) →
  ∀ k e,
    cache (store (getLocatorWithWait toISOString env page orig options w).2) !! k = Some e →
    nonempty (generatedLocator e) = true.
Proof.
  intros Hinv k e' He'.
  destruct (decide (k = orig)) as [->|Hk].
  - destruct (cache (store w) !! orig) as [e0|] eqn:He0.
    + destruct (proj2 (resolution_frame page orig options w) e0 He0)
        as (ok & ko & Hnew & _).
      rewrite Hnew in He'. injection He' as <-. simpl. by eapply Hinv.
    + destruct (getLocatorWithWait_shape page orig options w)
        as [[Horig Heq]|(Horig & c & fs & calls & res & Hpath & _ & Heq)];
        rewrite Heq in He'.
      * simpl in He'. congruence.
      * rewrite store_evolve in He'. on_paths Hpath; try congruence;
          cbn [cache countMiss] in He'; try congruence;
          rewrite Hc, lookup_insert_eq in He'; by injection He' as <-.
  - rewrite (proj1 (resolution_frame page orig options w) k Hk) in He'.
    by eapply Hinv.
Qed.


(** In discovery mode a resolution whose original locator fails always
    throws: no healed locator, cached or fresh, is ever returned. *)
Lemma discovery_mode_always_throws page orig options w :
  waitForFirst page orig (timeoutOf options) = false →
  shouldRunWithSmartLocator (config w) = false →
  ∃ e, (getLocatorWithWait toISOString env page orig options w).1 = Throw e
       ∧ structuredFailure orig e.
Proof.
  intros Horig Hmode.
  destruct (getLocatorWithWait_shape page orig options w)
    as [[Horig' _]|(_ & c & fs & calls & res & Hpath & Hres & _)]; [congruence|].
  rewrite Hmode in Hres.
  assert (∃ e, (getLocatorWithWait toISOString env page orig options w).1 = Throw e)
    as [e He] by (destruct res; eauto).
  exists e. split; [done|]. by eapply getLocatorWithWait_failures.
Qed.


(** *** Particular paths *)

(** The client is made when the generator is built: a generator built
    without a key never calls the provider, also when a key is configured
    later and healing thereby enabled. On a miss the resolution fails with
    the generation error; the entries and the file are left alone. *)
Theorem late_key_does_not_enable_generation cfg instance fs0 page orig options w :
  openApiKey cfg = "" →
  generator w = new_SmartLocatorGenerator getTime env cfg instance fs0 →
  waitForFirst page orig (timeoutOf options) = false →
  isSmartLocatorEnabled (config w) = true →
  cache (store w) !! orig = None →
  getLocatorWithWait toISOString env page orig options w
    = (Throw (SelfHealingLocatorError (generationFailedMessage orig) orig None),
       evolve w (countMiss (store w)) (disk w)
         [LogCacheMiss orig;
          LogError "OpenAI client not initialized. Cannot generate smart locator.";
          LogSelfHealingFailure orig (generationFailedMessage orig)]).
Proof.
  intros Hkey Hgen Horig Hen Hmiss.
  assert (openai (generator w) = false) as Hai by (by rewrite Hgen; simpl; rewrite Hkey).
  rewrite (getLocatorWithWait_fallback _ _ _ _ _ _ Horig).
  by rewrite (resolveSmartLocator_no_client _ _ _ _ Hen Hmiss Hai).
Qed.

(** In discovery mode a cached locator that validates is not returned
    either: the resolution applies [successCount++] to the entry, which
    then counts one success more when its count was from -2^53 up to
    2^53 - 1, and throws the review error with the original and the cached
    locator, without a call of the provider. *)
Theorem discovery_reports_cached_locator page orig options w e :
  waitForFirst page orig (timeoutOf options) = false →
  isSmartLocatorEnabled (config w) = true →
  shouldRunWithSmartLocator (config w) = false →
  cache (store w) !! orig = Some e →
  nonempty (generatedLocator e) = true →
  waitFor page (generatedLocator e) (timeoutOf options) = true →
  (getLocatorWithWait toISOString env page orig options w).1
    = Throw (Error (suggestionMessage orig (generatedLocator e)))
  ∧ cache (store (getLocatorWithWait toISOString env page orig options w).2)
      = <[orig := bumpSuccess e]> (cache (store w))
  ∧ (- 2 ^ 53 ≤ successCount e < 2 ^ 53 →
     successCount
       <$> cache (store (getLocatorWithWait toISOString env page orig options w).2) !! orig
       = Some (successCount e + 1))
  ∧ log (getLocatorWithWait toISOString env page orig options w).2
      = log w ++ [LogCacheHit orig (generatedLocator e);
                  LogSelfHealingSuccess orig (generatedLocator e);
                  LogWarn (suggestionMessage orig (generatedLocator e))].
Proof.
  intros Horig Hen Hmode Hhit Hne Hval.
  rewrite (getLocatorWithWait_fallback _ _ _ _ _ _ Horig).
  rewrite (resolveSmartLocator_hit _ _ _ _ _ _ _ Hen Hhit Hne), Hval.
  change (config (evolve w ?c ?fs ?l)) with (config w). rewrite Hmode.
  rewrite evolve_with_log. cbn [fst snd]. rewrite store_evolve.
  destruct (updateSuccess_hit orig (countHit (store w)) (disk w) e Hhit) as (Hc & _ & _).
  split_and!; [done|exact Hc| |done].
  intros Hb. rewrite Hc, lookup_insert_eq. simpl. by rewrite increment_exact.
Qed.

(** A locator healed by the provider in healing mode is served from the
    store afterwards: the next resolution of the key on the same page
    returns it without a call of the provider, and the entry then counts
    two successes. *)
Theorem healed_locator_is_reused page orig options w r :
  waitForFirst page orig (timeoutOf options) = false →
  shouldRunWithSmartLocator (config w) = true →
  cache (store w) !! orig = None →
  openai (generator w) = true →
  completion env (generationRequest page orig options) = Some r →
  nonempty (locator r) = true →
  nonempty (resp_strategy r) = true →
  waitFor page (locator r) (timeoutOf options) = true →
  let w1 := (getLocatorWithWait toISOString env page orig options w).2 in
  (getLocatorWithWait toISOString env page orig options w).1 = Ok (locator r)
  ∧ (getLocatorWithWait toISOString env page orig options w1).1 = Ok (locator r)
  ∧ log (getLocatorWithWait toISOString env page orig options w1).2
      = log w1 ++ [LogCacheHit orig (locator r); LogSelfHealingSuccess orig (locator r)]
  ∧ cache (store (getLocatorWithWait toISOString env page orig options w1).2) !! orig
      = Some (counted (written toISOString (now env, orig, responseEntry orig r)) 2 0).
Proof.
  intros Horig Hmode Hmiss Hai Hr Hl Hs Hval w1.
  assert (isSmartLocatorEnabled (config w) = true) as Hen
    by (by apply andb_prop in Hmode as [_ ?]).
  pose proof (resolveSmartLocator_fresh toISOString env page orig options w r
                Hen Hmiss Hai Hr Hl Hs) as Hres.
  cbv zeta in Hres. rewrite Hval in Hres.
  assert (getLocatorWithWait toISOString env page orig options w
          = (Ok (locator r),
             evolve w
               (updateSuccess orig
                  (set toISOString (now env) orig (responseEntry orig r)
                     (countMiss (store w)) (disk w)).1
                  (set toISOString (now env) orig (responseEntry orig r)
                     (countMiss (store w)) (disk w)).2).1
               (updateSuccess orig
                  (set toISOString (now env) orig (responseEntry orig r)
                     (countMiss (store w)) (disk w)).1
                  (set toISOString (now env) orig (responseEntry orig r)
                     (countMiss (store w)) (disk w)).2).2
               [LogCacheMiss orig;
                LogApiCall (openApiModel (gen_config (generator w)));
                LogSmartLocatorGeneration orig (locator r) (resp_strategy r);
                LogSelfHealingSuccess orig (locator r)])) as Hfirst.
  { rewrite (getLocatorWithWait_fallback _ _ _ _ _ _ Horig), Hres.
    change (config (evolve w ?c ?fs ?l)) with (config w). by rewrite Hmode. }
  assert (cache (store w1) !! orig
          = Some (counted (written toISOString (now env, orig, responseEntry orig r)) 1 0))
    as Hhit.
  { subst w1. rewrite Hfirst. cbn [snd]. rewrite store_evolve.
    rewrite updateSuccess_lookup, decide_True by done. simpl.
    by rewrite lookup_insert_eq. }
  assert (config w1 = config w) as Hcfg by (by subst w1; rewrite Hfirst).
  assert (isSmartLocatorEnabled (config w1) = true) as Hen1 by (by rewrite Hcfg).
  split; [by rewrite Hfirst|].
  rewrite (getLocatorWithWait_fallback _ _ _ _ _ _ Horig).
  rewrite (resolveSmartLocator_hit toISOString env page orig options w1 _ Hen1 Hhit Hl).
  cbn [generatedLocator counted written responseEntry ne_generatedLocator snd].
  rewrite Hval. change (config (evolve w1 ?c ?fs ?l)) with (config w1).
  rewrite Hcfg, Hmode. cbn [fst snd]. split_and!; [done|done|].
  rewrite store_evolve, updateSuccess_lookup, decide_True by done.
  cbn [cache countHit]. rewrite Hhit. reflexivity.
Qed.

End MoreResolverFacts.

(** ** Actions *)

Section ActionFacts.

Variable toISOString : Z → string.
Variable env : Env.
Variable driver : Driver.

Lemma thenAct_throw {A B} (r : result A * World) (k : A → result B * list Action) e :
  r.1 = Throw e → thenAct r k = (Throw e, r.2, []).
Proof. destruct r as [[a|e'] w']; simpl; by intros [= ->]. Qed.

Lemma thenAct_ok {A B} (r : result A * World) (k : A → result B * list Action) a :
  r.1 = Ok a → thenAct r k = ((k a).1, r.2, (k a).2).
Proof. destruct r as [[a'|e'] w']; simpl; by intros [= ->]. Qed.

(** In discovery mode nothing is ever done with a locator that had to be
    healed: when the original locator fails, [click], [fill], [waitFor],
    [textContent] and [innerText] ask nothing of the page and end in the
    error of the resolution, one of the structured failures. *)
Theorem discovery_mode_never_acts page orig text state options w :
  waitForFirst page orig (timeoutOf options) = false →
  shouldRunWithSmartLocator (config w) = false →
  ∃ e,
    structuredFailure orig e
    ∧ (getLocatorWithWait toISOString env page orig options w).1 = Throw e
    ∧ click toISOString env driver page orig options w
      = (Throw e, (getLocatorWithWait toISOString env page orig options w).2, [])
    ∧ fill toISOString env driver page orig text options w
      = (Throw e, (getLocatorWithWait toISOString env page orig options w).2, [])
    ∧ waitFor_ toISOString env driver page orig
        {| wf_options := options; wf_state := state |} w
      = (Throw e, (getLocatorWithWait toISOString env page orig options w).2, [])
    ∧ textContent toISOString env driver page orig options w
      = (Throw e, (getLocatorWithWait toISOString env page orig options w).2, [])
    ∧ innerText toISOString env driver page orig options w
      = (Throw e, (getLocatorWithWait toISOString env page orig options w).2, []).
Proof.
  intros Horig Hmode.
  destruct (discovery_mode_always_throws toISOString env page orig options w Horig Hmode)
    as (e & He & Hs).
  exists e. unfold click, fill, waitFor_, textContent, innerText. cbn [wf_options].
  split_and!; try done; by apply thenAct_throw.
Qed.

(** In healing mode the actions go to the cached locator when the
    original fails and the cached one validates: [click] clicks it, and
    [fill] clears it and then fills it, or stops at the error of the
    clearing; nothing is asked of the original locator. *)
Theorem healing_mode_acts_on_cached_locator page orig text options w e :
  waitForFirst page orig (timeoutOf options) = false →
  shouldRunWithSmartLocator (config w) = true →
  cache (store w) !! orig = Some e →
  nonempty (generatedLocator e) = true →
  waitFor page (generatedLocator e) (timeoutOf options) = true →
  (click toISOString env driver page orig options w).1.1
    = outcome (doClick driver (generatedLocator e))
  ∧ (click toISOString env driver page orig options w).2
    = [AClick (generatedLocator e)]
  ∧ (fill toISOString env driver page orig text options w).2
    = match doClear driver (generatedLocator e) with
      | Some _ => [AClear (generatedLocator e)]
      | None => [AClear (generatedLocator e); AFill (generatedLocator e) text]
      end
  ∧ (fill toISOString env driver page orig text options w).1.1
    = match doClear driver (generatedLocator e) with
      | Some err => Throw err
      | None => outcome (doFill driver (generatedLocator e) text)
      end
  ∧ (click toISOString env driver page orig options w).1.2
    = (getLocatorWithWait toISOString env page orig options w).2.
Proof.
  intros Horig Hmode Hhit Hne Hval.
  assert (isSmartLocatorEnabled (config w) = true) as Hen
    by (by apply andb_prop in Hmode as [_ ?]).
  assert ((getLocatorWithWait toISOString env page orig options w).1
          = Ok (generatedLocator e)) as Hok.
  { rewrite (getLocatorWithWait_fallback _ _ _ _ _ _ Horig).
    rewrite (resolveSmartLocator_hit _ _ _ _ _ _ _ Hen Hhit Hne), Hval.
    change (config (evolve w ?c ?fs ?l)) with (config w). by rewrite Hmode. }
  unfold click, fill.
  rewrite !(thenAct_ok _ _ _ Hok). cbn [fst snd].
  split_and!; try done; by destruct (doClear driver (generatedLocator e)).
Qed.



(** In discovery mode [exists] tells whether the original locator
    attaches, and nothing more: a locator that had to be healed counts as
    absent. *)
Theorem exists_in_discovery_mode page orig options w :
  shouldRunWithSmartLocator (config w) = false →
  (exists_ toISOString env page orig options w).1
    = Ok (waitForFirst page orig (timeoutOf options)).
Proof.
  intros Hmode. unfold exists_, try_catch, mbind, M_bind, bind, mret, M_ret, ret.
  change (getLocatorWithWait toISOString env page orig
            {| opt_timeout := Some (timeoutOf options);
               elementDescription := elementDescription options |} w)
    with (getLocatorWithWait toISOString env page orig options w).
  destruct (waitForFirst page orig (timeoutOf options)) eqn:Horig.
  - by rewrite (getLocatorWithWait_original toISOString env page orig options w Horig).
  - destruct (discovery_mode_always_throws toISOString env page orig options w Horig Hmode)
      as (e & He & _).
    destruct (getLocatorWithWait toISOString env page orig options w) as [[l|e'] w'];
      [discriminate He|done].
Qed.

End ActionFacts.

(** ** Further instances on the sample data *)

Lemma updates_accumulate_witness :
  forallb keepsKeys Scenario.updates = true
  ∧ cache (calls Sample.toISOString Scenario.updates
             (Sample.usedStore, Sample.emptyDisk)).1 !! "#old-id"
      = Some (Sample.submitEntry "2025-01-01T00:00:00.000Z" 6 2)
  ∧ cache (calls Sample.toISOString Scenario.updates
             (Sample.usedStore, Sample.emptyDisk)).1 !! "#other" = None
  ∧ cache (calls Sample.toISOString Scenario.updates
             (Scenario.fullStore, Sample.emptyDisk)).1 !! "#old-id"
      = Some (Sample.submitEntry "2025-01-01T00:00:00.000Z" (2 ^ 53) 2).
Proof.
  split; [reflexivity|].
  destruct (updates_accumulate Sample.toISOString Scenario.updates
              (Sample.usedStore, Sample.emptyDisk) "#old-id" eq_refl) as (_ & Hexact & _).
  destruct (updates_accumulate Sample.toISOString Scenario.updates
              (Sample.usedStore, Sample.emptyDisk) "#other" eq_refl) as (Hother & _ & _).
  destruct (updates_accumulate Sample.toISOString Scenario.updates
              (Scenario.fullStore, Sample.emptyDisk) "#old-id" eq_refl) as (Hfull & _ & _).
  split_and!.
  - etrans; [apply (Hexact (Sample.submitEntry "2025-01-01T00:00:00.000Z" 4 1) eq_refl);
             by vm_compute|reflexivity].
  - etrans; [exact Hother|reflexivity].
  - etrans; [exact Hfull|reflexivity].
Defined.

Lemma storage_failure_is_absorbed_witness :
  writable Scenario.readOnlyDisk = false
  ∧ (calls Sample.toISOString Scenario.mutations
       (Sample.emptyStore, Scenario.readOnlyDisk)).2 = Scenario.readOnlyDisk
  ∧ (calls Sample.toISOString Scenario.mutations
       (Sample.emptyStore, Scenario.readOnlyDisk)).1
    = (calls Sample.toISOString Scenario.mutations
         (Sample.emptyStore, Sample.emptyDisk)).1.
Proof.
  split; [reflexivity|].
  exact (storage_failure_is_absorbed Sample.toISOString Scenario.mutations
           Sample.emptyStore Scenario.readOnlyDisk Sample.emptyDisk eq_refl).
Defined.

Lemma saved_store_reopens_witness :
  (writable Sample.emptyDisk = true ∧ existsb saves Scenario.mutations = true)
  ∧ cache (new_LocalCache Sample.getTime Sample.jan4 Sample.path
             (calls Sample.toISOString Scenario.mutations
                (Sample.emptyStore, Sample.emptyDisk)).2) !! "#old-id"
      = Some (Sample.submitEntry "2025-01-03T00:00:00.000Z" 1 0).
Proof.
  split; [by split|].
  destruct (saved_store_reopens Sample.toISOString Sample.getTime Scenario.mutations
              Sample.emptyStore Sample.emptyDisk Sample.jan4 eq_refl eq_refl) as [_ H].
  etrans; [exact (f_equal (λ m, m !! "#old-id") H)|reflexivity].
Defined.


Lemma clear_keeps_statistics_witness :
  writable Sample.emptyDisk = true
  ∧ cache (clear Sample.usedStore Sample.emptyDisk).1 = ∅
  ∧ totalHits (getStatistics (clear Sample.usedStore Sample.emptyDisk).1) = 5%N
  ∧ totalMisses (getStatistics (clear Sample.usedStore Sample.emptyDisk).1) = 2%N.
Proof.
  split; [reflexivity|].
  destruct (clear_keeps_statistics Sample.getTime Sample.usedStore Sample.emptyDisk
              Sample.jan4 eq_refl) as (H1 & _ & _ & H4 & H5 & _).
  split_and!; [exact H1|exact H4|exact H5].
Defined.

Lemma totalEntries_counts_keys_witness :
  is_Some (cache Sample.usedStore !! "#old-id")
  ∧ totalEntries (getStatistics
      (set Sample.toISOString Sample.jan3 "#old-id" Sample.submit
         Sample.usedStore Sample.emptyDisk).1) = 1%nat
  ∧ totalEntries (getStatistics
      (delete_ "#old-id" Sample.usedStore Sample.emptyDisk).2.1) = 0%nat.
Proof.
  assert (is_Some (cache Sample.usedStore !! "#old-id")) as Hin by (by eexists).
  destruct (totalEntries_counts_keys Sample.toISOString Sample.jan3 "#old-id"
              Sample.submit Sample.usedStore Sample.emptyDisk) as [H1 H2].
  split_and!; [exact Hin| |].
  - etrans; [exact H1|]. reflexivity.
  - apply Nat.succ_inj. etrans; [exact (H2 Hin)|]. reflexivity.
Defined.

Lemma degenerate_file_loads_empty_witness :
  degenerate (files Scenario.stringDisk !! Sample.path) = true
  ∧ loadCache Sample.getTime Sample.jan4 Sample.path Scenario.stringDisk = ∅.
Proof.
  split; [reflexivity|].
  exact (degenerate_file_loads_empty Sample.getTime Sample.jan4 Sample.path
           Scenario.stringDisk eq_refl).
Defined.

Lemma array_document_loads_by_index_witness :
  loadCache Sample.getTime Sample.jan4 Sample.path Scenario.arrayDisk !! "1"
    = Some (Sample.submitEntry "2025-01-03T00:00:00.000Z" 0 0)
  ∧ loadCache Sample.getTime Sample.jan4 Sample.path Scenario.arrayDisk !! "0" = None.
Proof.
  destruct (array_document_loads_by_index Sample.getTime Sample.jan4 Sample.path
              Scenario.arrayDisk _ eq_refl) as [H _].
  split.
  - etrans; [exact (H 1%nat)|reflexivity].
  - etrans; [exact (H 0%nat)|reflexivity].
Defined.

Lemma load_age_rule_witness :
  (files Sample.mixedDisk !! Sample.path = Some (Document (JObj Sample.mixedObject))
   ∧ Sample.mixedObject !! "#old-id"
       = Some (entryJson (Sample.submitEntry "2025-01-03T00:00:00.000Z" 4 1))
   ∧ isValidCacheEntry (entryJson (Sample.submitEntry "2025-01-03T00:00:00.000Z" 4 1))
       = true)
  ∧ loadCache Sample.getTime Sample.jan4 Sample.path Sample.mixedDisk !! "#old-id"
      = Some (asCacheEntry
                (entryJson (Sample.submitEntry "2025-01-03T00:00:00.000Z" 4 1))).
Proof.
  split; [by split_and!|].
  apply (load_age_rule Sample.getTime Sample.jan4 Sample.path Sample.mixedDisk
           Sample.mixedObject "#old-id" _ eq_refl eq_refl eq_refl).
  right. exists Sample.jan3. split; [reflexivity|]. vm_compute. discriminate.
Defined.

Lemma later_load_is_smaller_witness :
  Sample.jan3 ≤ Sample.jan4
  ∧ loadCache Sample.getTime Sample.jan4 Sample.path Sample.mixedDisk
      ⊆ loadCache Sample.getTime Sample.jan3 Sample.path Sample.mixedDisk.
Proof.
  assert (Sample.jan3 ≤ Sample.jan4) as Hle by (vm_compute; discriminate).
  split; [exact Hle|].
  exact (later_load_is_smaller Sample.getTime Sample.jan3 Sample.jan4 Sample.path
           Sample.mixedDisk Hle).
Defined.

Lemma healing_enabled_by_environment_witness :
  isSmartLocatorEnabled (new_ConfigManager Scenario.variables Scenario.variables) = true
  ∧ shouldRunWithSmartLocator (new_ConfigManager Scenario.variables Scenario.variables)
      = false.
Proof.
  destruct (healing_enabled_by_environment Scenario.variables) as (H1 & H2 & _).
  split.
  - apply H1. split; [reflexivity|]. exists "sk-test". split; [reflexivity|discriminate].
  - apply not_true_is_false. intros E. apply H2 in E as [E _]. discriminate E.
Defined.

Lemma console_levels_witness :
  (lg_enableLogging Scenario.chatty = true
   ∧ levelNumber (lg_logLevel Scenario.quiet) ≤ levelNumber (lg_logLevel Scenario.chatty))
  ∧ console Scenario.quiet Scenario.trace
      `sublist_of` console Scenario.chatty Scenario.trace
  ∧ LogSelfHealingFailure "#missing" "Smart locator generation failed for: #missing"
      ∈ console Scenario.quiet Scenario.trace
  ∧ (LogApiCall "gpt-4o-mini" ∉ console Scenario.quiet Scenario.trace)
  ∧ LogCacheMiss "#missing" ∈ console Scenario.chatty Scenario.trace
  ∧ console {| lg_logLevel := getLogLevel "verbose"; lg_enableLogging := true |}
      Scenario.trace
    = [ LogApiCall "gpt-4o-mini"; LogError "OpenAI API call failed";
        LogSelfHealingFailure "#missing" "Smart locator generation failed for: #missing" ].
Proof.
  assert (levelNumber (lg_logLevel Scenario.quiet)
          ≤ levelNumber (lg_logLevel Scenario.chatty)) as Hle by (vm_compute; discriminate).
  assert (levelNumber (lg_logLevel Scenario.quiet)
          ≤ levelNumber (lg_logLevel Scenario.quiet)) as Hle' by (vm_compute; discriminate).
  split; [by split|].
  destruct (console_levels Scenario.quiet Scenario.chatty Scenario.trace eq_refl Hle)
    as (H1 & _ & Hchatty & _ & _ & _ & _ & Hname).
  destruct (console_levels Scenario.quiet Scenario.quiet Scenario.trace eq_refl Hle')
    as (_ & _ & Hquiet & _).
  split_and!.
  - exact H1.
  - apply Hquiet. split; [|exact I].
    apply list_elem_of_In. right. right. right. left. reflexivity.
  - intros [_ [H|H]]%Hquiet; discriminate H.
  - apply Hchatty. split; [|reflexivity].
    apply list_elem_of_In. left. reflexivity.
  - etrans; [apply Hname; discriminate|reflexivity].
Defined.

Lemma resolution_touches_one_entry_witness :
  cache (store (Sample.world Sample.healing Sample.cached)) !! "#old-id"
    = Some (Sample.submitEntry "2025-01-03T00:00:00.000Z" 0 0)
  ∧ (∃ ok ko,
       cache (store (getLocatorWithWait Sample.toISOString Sample.env Sample.page
                       "#old-id" Sample.options
                       (Sample.world Sample.healing Sample.cached)).2) !! "#old-id"
         = Some (counted (Sample.submitEntry "2025-01-03T00:00:00.000Z" 0 0) ok ko)
       ∧ 0 ≤ ok ∧ 0 ≤ ko ∧ ok + ko ≤ 1)
  ∧ cache (store (getLocatorWithWait Sample.toISOString Sample.env Sample.page
                    "#missing" Sample.options
                    (Sample.world Sample.healing Sample.cached)).2) !! "#old-id"
      = Some (Sample.submitEntry "2025-01-03T00:00:00.000Z" 0 0).
Proof.
  split; [reflexivity|]. split.
  - apply (proj2 (proj2 (resolution_touches_one_entry Sample.toISOString Sample.env
                           Sample.page "#old-id" Sample.options
                           (Sample.world Sample.healing Sample.cached)))
             _ eq_refl); by vm_compute.
  - etrans; [apply (proj1 (resolution_touches_one_entry Sample.toISOString Sample.env
                             Sample.page "#missing" Sample.options
                             (Sample.world Sample.healing Sample.cached)))|reflexivity].
    discriminate.
Defined.

Lemma cached_locators_stay_nonempty_witness :
  (∀ k e, cache (store (Sample.world Sample.healing Sample.cached)) !! k = Some e →
          nonempty (generatedLocator e) = true)
  ∧ (∀ k e,
       cache (store (getLocatorWithWait Sample.toISOString Sample.env Sample.page
                       "#missing" Sample.options
                       (Sample.world Sample.healing Sample.cached)).2) !! k = Some e →
       nonempty (generatedLocator e) = true).
Proof.
  assert (∀ k e, cache (store (Sample.world Sample.healing Sample.cached)) !! k = Some e →
                 nonempty (generatedLocator e) = true) as Hinv.
  { intros k e H.
    change (cache (store (Sample.world Sample.healing Sample.cached)))
      with ({[ "#old-id" := Sample.submitEntry "2025-01-03T00:00:00.000Z" 0 0 ]}
              : gmap string CacheEntry) in H.
    apply lookup_singleton_Some in H as [_ <-]. reflexivity. }
  split; [exact Hinv|].
  exact (cached_locators_stay_nonempty Sample.toISOString Sample.env Sample.page
           "#missing" Sample.options (Sample.world Sample.healing Sample.cached) Hinv).
Defined.


Lemma late_key_does_not_enable_generation_witness :
  (openApiKey (Sample.configOf true true "" 2) = ""
   ∧ isSmartLocatorEnabled (config Scenario.lateKeyWorld) = true
   ∧ cache (store Scenario.lateKeyWorld) !! "#missing" = None)
  ∧ (getLocatorWithWait Sample.toISOString Sample.env Sample.page "#missing"
       Sample.options Scenario.lateKeyWorld).1
      = Throw (SelfHealingLocatorError
                 "Smart locator generation failed for: #missing" "#missing" None).
Proof.
  split; [by split_and!|].
  exact (f_equal fst
           (late_key_does_not_enable_generation Sample.toISOString Sample.getTime
              Sample.env (Sample.configOf true true "" 2) None Sample.emptyDisk
              Sample.page "#missing" Sample.options Scenario.lateKeyWorld
              eq_refl eq_refl eq_refl eq_refl ltac:(reflexivity))).
Defined.

Lemma discovery_reports_cached_locator_witness :
  (shouldRunWithSmartLocator (config (Sample.world Sample.discovery Sample.cached)) = false
   ∧ waitFor Sample.oldPage "[data-testid=submit]" (timeoutOf Sample.options) = true)
  ∧ (getLocatorWithWait Sample.toISOString Sample.env Sample.oldPage "#old-id"
       Sample.options (Sample.world Sample.discovery Sample.cached)).1
      = Throw (Error (suggestionMessage "#old-id" "[data-testid=submit]"))
  ∧ cache (store (getLocatorWithWait Sample.toISOString Sample.env Sample.oldPage
                    "#old-id" Sample.options
                    (Sample.world Sample.discovery Sample.cached)).2) !! "#old-id"
      = Some (Sample.submitEntry "2025-01-03T00:00:00.000Z" 1 0).
Proof.
  split; [by split|].
  destruct (discovery_reports_cached_locator Sample.toISOString Sample.env Sample.oldPage
              "#old-id" Sample.options (Sample.world Sample.discovery Sample.cached)
              (Sample.submitEntry "2025-01-03T00:00:00.000Z" 0 0)
              eq_refl eq_refl eq_refl eq_refl eq_refl eq_refl) as (H1 & H2 & _).
  split; [exact H1|].
  etrans; [exact (f_equal (λ m, m !! "#old-id") H2)|reflexivity].
Defined.

Lemma healed_locator_is_reused_witness :
  (shouldRunWithSmartLocator (config (Sample.world Sample.healing ∅)) = true
   ∧ completion Sample.env (generationRequest Sample.page "#missing" Sample.options)
       = Some Sample.reply
   ∧ waitFor Sample.page (locator Sample.reply) (timeoutOf Sample.options) = true)
  ∧ (getLocatorWithWait Sample.toISOString Sample.env Sample.page "#missing"
       Sample.options
       (getLocatorWithWait Sample.toISOString Sample.env Sample.page "#missing"
          Sample.options (Sample.world Sample.healing ∅)).2).1
      = Ok "button.submit".
Proof.
  split; [by split_and!|].
  exact (proj1 (proj2
           (healed_locator_is_reused Sample.toISOString Sample.env Sample.page
              "#missing" Sample.options (Sample.world Sample.healing ∅) Sample.reply
              ltac:(reflexivity) ltac:(reflexivity) ltac:(reflexivity)
              ltac:(reflexivity) ltac:(reflexivity) ltac:(reflexivity)
              ltac:(reflexivity) ltac:(reflexivity)))).
Defined.

Lemma discovery_mode_never_acts_witness :
  (waitForFirst Sample.page "#missing" (timeoutOf Sample.options) = false
   ∧ shouldRunWithSmartLocator (config (Sample.world Sample.discovery ∅)) = false)
  ∧ (click Sample.toISOString Sample.env Scenario.driver Sample.page "#missing"
       Sample.options (Sample.world Sample.discovery ∅)).2 = []
  ∧ (fill Sample.toISOString Sample.env Scenario.driver Sample.page "#missing" "secret"
       Sample.options (Sample.world Sample.discovery ∅)).2 = [].
Proof.
  split; [by split|].
  destruct (discovery_mode_never_acts Sample.toISOString Sample.env Scenario.driver
              Sample.page "#missing" "secret" None Sample.options
              (Sample.world Sample.discovery ∅) ltac:(reflexivity) ltac:(reflexivity))
    as (e & _ & _ & Hclick & Hfill & _).
  split; [by rewrite Hclick|by rewrite Hfill].
Defined.

Lemma healing_mode_acts_on_cached_locator_witness :
  (shouldRunWithSmartLocator (config (Sample.world Sample.healing Sample.cached)) = true
   ∧ waitFor Sample.oldPage "[data-testid=submit]" (timeoutOf Sample.options) = true)
  ∧ (click Sample.toISOString Sample.env Scenario.driver Sample.oldPage "#old-id"
       Sample.options (Sample.world Sample.healing Sample.cached)).2
      = [AClick "[data-testid=submit]"]
  ∧ (fill Sample.toISOString Sample.env Scenario.driver Sample.oldPage "#old-id" "secret"
       Sample.options (Sample.world Sample.healing Sample.cached)).2
      = [AClear "[data-testid=submit]"; AFill "[data-testid=submit]" "secret"].
Proof.
  split; [by split|].
  destruct (healing_mode_acts_on_cached_locator Sample.toISOString Sample.env
              Scenario.driver Sample.oldPage "#old-id" "secret" Sample.options
              (Sample.world Sample.healing Sample.cached)
              (Sample.submitEntry "2025-01-03T00:00:00.000Z" 0 0)
              eq_refl eq_refl eq_refl eq_refl eq_refl) as (_ & H2 & H3 & _).
  split; [exact H2|exact H3].
Defined.


Lemma exists_in_discovery_mode_witness :
  shouldRunWithSmartLocator (config (Sample.world Sample.discovery Sample.cached)) = false
  ∧ (exists_ Sample.toISOString Sample.env Sample.oldPage "#old-id" Sample.options
       (Sample.world Sample.discovery Sample.cached)).1 = Ok false.
Proof.
  split; [reflexivity|].
  exact (exists_in_discovery_mode Sample.toISOString Sample.env Sample.oldPage "#old-id"
           Sample.options (Sample.world Sample.discovery Sample.cached) eq_refl).
Defined.
